(** * libskylark: sketching transforms and least-squares entry points

A shallow embedding of
  - sketch/context.hpp            (the random stream context),
  - sketch/WZT_data.hpp           (the Woodruff-Zhang transform data),
  - sketch/RFT_Elemental.hpp      (random feature transforms on Elemental matrices),
  - sketch/dense_transform_Elemental_coldist_star_local.hpp,
  - nla/least_squares.hpp         (ApproximateLeastSquares, FastLeastSquares),
followed by the properties established about them.

Conventions.  [int], [El::Int] and [size_t] values are integers of [Z];
[size_t] arithmetic is reduced modulo [2^64], and [int] arithmetic to the
32-bit two's complement range, where the code computes it.
[double] is the primitive binary64 [float]; [std::pow] and [std::cos]
come from the C library and are an interface ([Libm]).  A C++ function
that mutates an object passed by reference and may throw is a function
from the state of that object to an [outcome] and the new state. *)

From Stdlib Require Import ZArith Lia Bool List Floats.
From stdpp Require Import base option list strings gmap.

Open Scope Z_scope.

(* ================================================================== *)
(** ** Machine integers *)

Definition size_t_modulus : Z := 2 ^ 64.

(** Conversion to [size_t], and the result of [size_t] arithmetic. *)
Definition to_size_t (z : Z) : Z := z mod size_t_modulus.

Definition INT_MIN : Z := - 2 ^ 31.
Definition INT_MAX : Z := 2 ^ 31 - 1.

(** The value an [int] computation leaves: the mathematical result when it
    is an [int], and otherwise (where C++ leaves the behaviour undefined)
    the two's complement result the usual targets produce, which is also
    what narrowing a wider [El::Int] to [int] gives. *)
Definition to_int (z : Z) : Z := (z + 2 ^ 31) mod 2 ^ 32 - 2 ^ 31.

(* ================================================================== *)
(** ** Exceptions and the state-and-exception monad *)

Inductive exception : Type :=
| std_runtime_error (what : string)
| std_logic_error (what : string)
| boost_mpi_exception (what : string)
| ptree_bad_path (path : string)
| ptree_bad_data (path : string)
| skylark_exception (error_msg : string)
| sketch_exception (error_msg : string)
| nla_exception (error_msg : string)
| elemental_exception (error_msg : string)
| mpi_exception (error_msg : string)
| unsupported_matrix_distribution
(** Not a C++ exception: an unchecked [std::vector] access outside the
    vector.  The language leaves the execution undefined; the model stops. *)
| undefined_vector_access (index : Z).

Inductive outcome (A : Type) : Type :=
| Return (a : A)
| Throw (e : exception).
Arguments Return {A} a.
Arguments Throw {A} e.

(** A computation over a mutable object of type [St]. *)
Definition SE (St A : Type) : Type := St -> outcome A * St.

Definition ret {St A} (a : A) : SE St A := fun s => (Return a, s).

Definition throw {St A} (e : exception) : SE St A := fun s => (Throw e, s).

Definition bind {St A B} (c : SE St A) (k : A -> SE St B) : SE St B :=
  fun s =>
    match c s with
    | (Return a, s') => k a s'
    | (Throw e, s') => (Throw e, s')
    end.

Notation "x <~ c ;; k" := (bind c (fun x => k))
  (at level 100, c at next level, right associativity).
Notation "c ;;; k" := (bind c (fun _ => k))
  (at level 100, right associativity).

(** [try { c } catch (...) { handler }]: [handler e] is [Some e'] when a
    catch clause matches [e] and rethrows [e'], [None] when none matches. *)
Definition try_catch {St A} (c : SE St A) (handler : exception -> option exception)
  : SE St A :=
  fun s =>
    match c s with
    | (Return a, s') => (Return a, s')
    | (Throw e, s') =>
        match handler e with
        | Some e' => (Throw e', s')
        | None => (Throw e, s')
        end
    end.

(** Reading and writing the state. *)
Definition get {St} : SE St St := fun s => (Return s, s).
Definition put {St} (s : St) : SE St unit := fun _ => (Return tt, s).

(** [for (int i = lo; i < hi; i++) body(i);] where [body] does not change
    the bounds. *)
Fixpoint for_each {St} (body : Z -> SE St unit) (indices : list Z) : SE St unit :=
  match indices with
  | [] => ret tt
  | i :: rest => body i ;;; for_each body rest
  end.

Definition int_range (lo hi : Z) : list Z :=
  map (fun k => lo + Z.of_nat k) (seq 0 (Z.to_nat (hi - lo))).

Definition for_loop {St} (lo hi : Z) (body : Z -> SE St unit) : SE St unit :=
  for_each body (int_range lo hi).

(* ================================================================== *)
(** ** utility/randgen.hpp: the interface [context_t] is written against *)

(** [random_samples_array_t<ValueType, Distribution>] as constructed by
    [context_t]: [random_samples_array(_counter, size, _seed, distribution)]. *)
Record random_samples_array_t (Distribution : Type) : Type :=
  mk_random_samples_array {
    _base : Z;
    _size : Z;
    _key : Z;
    _distribution : Distribution }.
Arguments mk_random_samples_array {Distribution}.
Arguments _base {Distribution}.
Arguments _size {Distribution}.
Arguments _key {Distribution}.
Arguments _distribution {Distribution}.

(** [random_array_t] as constructed by [context_t]:
    [random_array(_counter, size, _seed)]. *)
Record random_array_t : Type :=
  mk_random_array { ra_base : Z; ra_size : Z; ra_key : Z }.

(** The parts of randgen.hpp and Random123 that [context_t] calls and that
    are not part of this development.  [samples_ctor_what base size seed d]
    is the [what()] of the [std::runtime_error] the constructor throws, if
    it throws.  [draw d seed c] is the distribution [d] applied to a
    MicroURNG whose key is [seed] and whose counter is [{c, 0, 0, 0}]. *)
Class Randgen (Distribution ValueType : Type) : Type := {
  samples_ctor_what : Z -> Z -> Z -> Distribution -> option string;
  draw : Distribution -> Z -> Z -> ValueType }.

Class RandgenInt : Type := {
  array_ctor_what : Z -> Z -> Z -> option string;
  draw_int : Z -> Z -> Z }.

(** Modelled from the spec: [operator[]] of [random_samples_array_t], which
    is not in the sources; "each sample's generator input is (seed,
    counter_offset); generating the i-th batch element uses counter_offset +
    i", the counter being the first 64-bit word of the Threefry counter. *)
Definition samples_at {Distribution ValueType} `{Randgen Distribution ValueType}
    (a : random_samples_array_t Distribution) (i : Z) : ValueType :=
  draw (_distribution a) (_key a) (to_size_t (_base a + i)).

(** Modelled from the spec: [operator[]] of [random_array_t]. *)
Definition random_at `{RandgenInt} (a : random_array_t) (i : Z) : Z :=
  draw_int (ra_key a) (to_size_t (ra_base a + i)).

(** The counter offsets an array was given: offset [o] is that of sample
    number [(o - base) mod 2^64], which the array has when it is below
    [size]. *)
Definition in_reserved (base size o : Z) : bool :=
  (0 <=? o) && (o <? size_t_modulus) && (to_size_t (o - base) <? size).

Definition reserved_by {Distribution} (a : random_samples_array_t Distribution)
    (o : Z) : bool :=
  in_reserved (_base a) (_size a) o.

Definition reserved_by_array (a : random_array_t) (o : Z) : bool :=
  in_reserved (ra_base a) (ra_size a) o.

(* ================================================================== *)
(** ** sketch/context.hpp *)

(** [boost::mpi::communicator], as far as [context_t] looks at it. *)
Record communicator : Type := { comm_rank : Z; comm_size : Z }.

Record context_t : Type := mk_context {
  context_comm : communicator;
  context_rank : Z;
  context_size : Z;
  _counter : Z;
  _seed : Z }.

Definition context_t_ctor (seed : Z) (orig : communicator) : context_t :=
  {| context_comm := orig;
     context_rank := comm_rank orig;
     context_size := comm_size orig;
     _counter := 0;
     _seed := seed |}.

Definition set_counter (c : Z) (ctx : context_t) : context_t :=
  {| context_comm := context_comm ctx;
     context_rank := context_rank ctx;
     context_size := context_size ctx;
     _counter := c;
     _seed := _seed ctx |}.

Definition allocate_random_samples_array {Distribution ValueType}
    `{Randgen Distribution ValueType}
    (size : Z) (distribution : Distribution)
  : SE context_t (random_samples_array_t Distribution) :=
  fun ctx =>
    match samples_ctor_what (_counter ctx) size (_seed ctx) distribution with
    | None =>
        let random_samples_array :=
          mk_random_samples_array (_counter ctx) size (_seed ctx) distribution in
        (Return random_samples_array,
         set_counter (to_size_t (_counter ctx + size)) ctx)
    | Some what => (Throw (skylark_exception what), ctx)
    end.

Definition allocate_random_array `{RandgenInt} (size : Z)
  : SE context_t random_array_t :=
  fun ctx =>
    match array_ctor_what (_counter ctx) size (_seed ctx) with
    | None =>
        let random_array := mk_random_array (_counter ctx) size (_seed ctx) in
        (Return random_array,
         set_counter (to_size_t (_counter ctx + size)) ctx)
    | Some what => (Throw (skylark_exception what), ctx)
    end.

Definition random_int `{RandgenInt} : SE context_t Z :=
  random_array <~ allocate_random_array 1 ;;
  ret (random_at random_array 0).

(** Modelled from the spec: [context_t::generate_random_samples_array], which
    WZT_data.hpp calls and the context.hpp of the sources does not have;
    "allocate(size, distribution) -> array of size independently-distributed
    samples", here the allocation above followed by reading the [size]
    samples into a [std::vector]. *)
Definition generate_random_samples_array {Distribution ValueType}
    `{Randgen Distribution ValueType}
    (size : Z) (distribution : Distribution)
  : SE context_t (list ValueType) :=
  a <~ allocate_random_samples_array size distribution ;;
  ret (map (samples_at a) (int_range 0 size)).

(** One successful allocation, by either member function: from [ctx], a
    request of [size] samples returns an array with the given base and size
    and leaves [ctx']. *)
Inductive allocates (ctx : context_t) (size : Z) (ctx' : context_t)
    (base asize : Z) : Prop :=
| allocates_samples {Distribution ValueType} `{Randgen Distribution ValueType}
    (distribution : Distribution) (a : random_samples_array_t Distribution) :
    allocate_random_samples_array size distribution ctx = (Return a, ctx') ->
    base = _base a -> asize = _size a ->
    allocates ctx size ctx' base asize
| allocates_array `{RandgenInt} (a : random_array_t) :
    allocate_random_array size ctx = (Return a, ctx') ->
    base = ra_base a -> asize = ra_size a ->
    allocates ctx size ctx' base asize.

(** The state of a [size_t] counter. *)
Definition counter_in_range (ctx : context_t) : Prop :=
  0 <= _counter ctx < size_t_modulus.

(** A sequence of successful allocations from one context, with the base
    and size of each array in the order of the calls. *)
Inductive allocation_run : context_t -> list (Z * Z) -> context_t -> Prop :=
| run_done ctx : allocation_run ctx [] ctx
| run_step ctx size ctx1 base asize rest ctx2 :
    0 <= size ->
    allocates ctx size ctx1 base asize ->
    allocation_run ctx1 rest ctx2 ->
    allocation_run ctx ((base, asize) :: rest) ctx2.

(** The number of samples a run was given. *)
Definition total_size (arrays : list (Z * Z)) : Z :=
  fold_right (fun a acc => snd a + acc) 0 arrays.

(* ================================================================== *)
(** ** utility/distributions.hpp and boost::random, as type tags *)

(** [boost::random::uniform_int_distribution<IndexType>(min, max)]. *)
Record uniform_int_distribution : Type :=
  mk_uniform_int { dist_min : Z; dist_max : Z }.

(** [boost::random::exponential_distribution<ValueType>], default
    constructed. *)
Inductive exponential_distribution : Type := mk_exponential.

(** [utility::rademacher_distribution_t<ValueType>]. *)
Inductive rademacher_distribution_t : Type := mk_rademacher.

(* ================================================================== *)
(** ** A small counter-based generator to run the model on

Random123's Threefry4x64 and boost's distributions are external.  The
instances below stand in for them when a statement is evaluated on
concrete inputs: like the real generator, each sample is computed from
the seed and the counter alone, and the constructors never throw. *)

Module Standin.

Definition mix (seed c : Z) : Z := (seed * 31 + c * 17 + 7) mod 1009.

Definition float_of_Z (z : Z) : float := PrimFloat.of_uint63 (Uint63.of_Z z).

#[export] Instance uniform_int_randgen : Randgen uniform_int_distribution Z := {|
  samples_ctor_what := fun _ _ _ _ => None;
  draw := fun d seed c =>
    dist_min d + mix seed c mod (dist_max d - dist_min d + 1) |}.

#[export] Instance exponential_randgen : Randgen exponential_distribution float := {|
  samples_ctor_what := fun _ _ _ _ => None;
  draw := fun _ seed c => (float_of_Z (1 + mix seed c mod 8) / 4)%float |}.

#[export] Instance rademacher_randgen : Randgen rademacher_distribution_t float := {|
  samples_ctor_what := fun _ _ _ _ => None;
  draw := fun _ seed c => if Z.even (mix seed c) then 1%float else (-1)%float |}.

#[export] Instance int_randgen : RandgenInt := {|
  array_ctor_what := fun _ _ _ => None;
  draw_int := mix |}.

Definition world : communicator := {| comm_rank := 0; comm_size := 2 |}.
Definition world1 : communicator := {| comm_rank := 1; comm_size := 2 |}.

(** Two contexts of seed 7 on different ranks, brought to counter 8 by
    different allocations. *)
Definition after_3_and_5 : context_t :=
  snd (allocate_random_array 5
    (snd (allocate_random_samples_array 3 mk_rademacher
       (context_t_ctor 7 world)))).

Definition after_8 : context_t :=
  snd (allocate_random_samples_array 8 (mk_uniform_int 0 9)
    (context_t_ctor 7 world1)).

End Standin.

(* ================================================================== *)
(** ** The C library *)

Class Libm : Type := {
  pow : float -> float -> float;
  cos : float -> float }.

(* ================================================================== *)
(** ** boost::property_tree::ptree

A tree is read and written by full path ("sketch.p").  boost keeps the
text of each value and translates it on [get]; the model keeps the value
with its type, so a [put] followed by a [get] of the same type returns
the value that was put. *)

Inductive ptree_value : Type :=
| pt_int (z : Z)
| pt_double (d : float)
| pt_string (s : string).

Abbreviation ptree := (gmap string ptree_value).

Definition ptree_put (path : string) (v : ptree_value) (sk : ptree) : ptree :=
  <[path := v]> sk.

Definition ptree_get_double {St} (sk : ptree) (path : string) : SE St float :=
  match sk !! path with
  | Some (pt_double d) => ret d
  | Some _ => throw (ptree_bad_data path)
  | None => throw (ptree_bad_path path)
  end.

Definition ptree_get_int {St} (sk : ptree) (path : string) : SE St Z :=
  match sk !! path with
  | Some (pt_int z) => ret z
  | Some _ => throw (ptree_bad_data path)
  | None => throw (ptree_bad_path path)
  end.

Definition ptree_get_string {St} (sk : ptree) (path : string) : SE St string :=
  match sk !! path with
  | Some (pt_string z) => ret z
  | Some _ => throw (ptree_bad_data path)
  | None => throw (ptree_bad_path path)
  end.

(* ================================================================== *)
(** ** sketch/hash_transform_data.hpp: the base class of [WZT_data_t]

[hash_transform_data_t<IndexType, ValueType, uniform_int_distribution,
exponential_distribution>] with [IndexType = int], [ValueType = double]:
the members [WZT_data_t] reads and writes. *)

Record hash_transform_data_t : Type := mk_hash_transform_data {
  base_N : Z;
  base_S : Z;
  base_name : string;
  row_idx : list Z;
  row_value : list float }.

Definition set_row_value (v : list float) (b : hash_transform_data_t)
  : hash_transform_data_t :=
  {| base_N := base_N b; base_S := base_S b; base_name := base_name b;
     row_idx := row_idx b; row_value := v |}.

(** The base class's constructors and the [operator<<] of [transform_data_t],
    which WZT_data.hpp calls and which are not part of the sources. *)
Class HashBase : Type := {
  (** [hash_transform_data_t(N, S, context, name)] *)
  Base_ctor : Z -> Z -> string -> SE context_t hash_transform_data_t;
  (** [hash_transform_data_t(sketch, context)] *)
  Base_ctor_ptree : ptree -> SE context_t hash_transform_data_t;
  (** [sk << static_cast<const transform_data_t&>(data)] *)
  transform_data_write : hash_transform_data_t -> ptree -> ptree }.

(* ================================================================== *)
(** ** sketch/WZT_data.hpp *)

Record WZT_data_t : Type := mk_WZT_data {
  Base : hash_transform_data_t;
  _P : float }.

Section WZT.
  Context `{HB : HashBase} `{LM : Libm}
          `{RGr : Randgen rademacher_distribution_t float}.

(** [pm * pow(1.0 / e, 1.0 / _P)] *)
Definition rescaled (P : float) (pm e : float) : float :=
  (pm * pow (1 / e) (1 / P))%float.

(** The body of the loop of [_populate]:
    [row_value[i] = pmvals[i] * pow(1.0 / row_value[i], 1.0 / _P)]. *)
Definition rescale (pmvals : list float) (P : float) (i : Z)
  : SE (list float) unit :=
  row_value <~ get ;;
  match pmvals !! Z.to_nat i, row_value !! Z.to_nat i with
  | Some pm, Some e => put (<[Z.to_nat i := rescaled P pm e]> row_value)
  | _, _ => throw (undefined_vector_access i)
  end.

Definition _populate (this : WZT_data_t) : SE context_t WZT_data_t :=
  pmvals <~ generate_random_samples_array
              (to_size_t (base_N (Base this))) mk_rademacher ;;
  fun context =>
    match for_loop 0 (base_N (Base this)) (rescale pmvals (_P this))
                   (row_value (Base this)) with
    | (Return _, v) =>
        (Return (mk_WZT_data (set_row_value v (Base this)) (_P this)), context)
    | (Throw e, _) => (Throw e, context)
    end.

(** [WZT_data_t(int N, int S, double p, context_t& context)] *)
Definition WZT_data_t_ctor (N S : Z) (p : float) : SE context_t WZT_data_t :=
  base <~ Base_ctor N S "WZT" ;;
  let this := mk_WZT_data base p in
  if ((p <? 1) || (2 <? p))%float
  then throw (sketch_exception "WZT parameter p has unsupported range")
  else _populate this.

(** [WZT_data_t(const ptree& sketch, context_t& context)] *)
Definition WZT_data_t_ctor_ptree (sketch : ptree) : SE context_t WZT_data_t :=
  base <~ Base_ctor_ptree sketch ;;
  p <~ ptree_get_double sketch "sketch.p" ;;
  _populate (mk_WZT_data base p).

(** [operator<<(ptree& sk, const WZT_data_t& data)] *)
Definition WZT_write (data : WZT_data_t) (sk : ptree) : ptree :=
  ptree_put "sketch.p" (pt_double (_P data))
    (transform_data_write (Base data) sk).

End WZT.

(** *** The hash family's base descriptor

The constructors and the serialization of [hash_transform_data_t] and
[transform_data_t] are not in the sources; the three definitions below
follow the spec. *)
Module HashModel.
Section Model.
  Context `{RGi : Randgen uniform_int_distribution Z}
          `{RGe : Randgen exponential_distribution float}.

(** Modelled from the spec: the constructor [hash_transform_data_t(N, S,
    context, name)], which "draws, for each input coordinate, (i) a target
    output coordinate via a uniform index map, and (ii) a per-column
    magnitude from a family-specific distribution", consuming "exactly the
    number of samples needed for its coefficients". *)
Definition populate (N S : Z) (name : string)
  : SE context_t hash_transform_data_t :=
  idx <~ generate_random_samples_array (to_size_t N) (mk_uniform_int 0 (S - 1)) ;;
  val <~ generate_random_samples_array (to_size_t N) mk_exponential ;;
  ret (mk_hash_transform_data N S name idx val).

(** Modelled from the spec: the constructor [hash_transform_data_t(sketch,
    context)]; "reconstruction regenerates coefficients by re-consuming the
    context's counter using the same sample count". *)
Definition from_ptree (sketch : ptree) : SE context_t hash_transform_data_t :=
  name <~ ptree_get_string sketch "sketch.type" ;;
  N <~ ptree_get_int sketch "sketch.N" ;;
  S <~ ptree_get_int sketch "sketch.S" ;;
  populate N S name.

(** Modelled from the spec: [operator<<] of [transform_data_t], "writing
    itself into a structured parameter tree (family tag, N, S, scale,
    family-specific parameters)"; the hash family has no scale. *)
Definition write (data : hash_transform_data_t) (sk : ptree) : ptree :=
  ptree_put "sketch.S" (pt_int (base_S data))
    (ptree_put "sketch.N" (pt_int (base_N data))
       (ptree_put "sketch.type" (pt_string (base_name data)) sk)).

#[export] Instance hash_base : HashBase := {|
  Base_ctor := populate;
  Base_ctor_ptree := from_ptree;
  transform_data_write := write |}.

End Model.
End HashModel.

(** [std::pow] where the exponent is 1 or 1/2 (that is, [p = 1] or [p = 2]),
    and a polynomial in place of [std::cos], to run the model on. *)
Module StandinLibm.

Definition pow_half (x y : float) : float :=
  if (y =? 0.5)%float then PrimFloat.sqrt x else x.

Definition cos_poly (x : float) : float := (1 - x * x / 2)%float.

#[export] Instance libm : Libm := {| pow := pow_half; cos := cos_poly |}.

End StandinLibm.

(* ================================================================== *)
(** ** Contexts that continue the same stream *)

(** Two contexts with the same seed at the same counter. *)
Definition same_stream (x y : context_t) : Prop :=
  _seed x = _seed y /\ _counter x = _counter y.

(** A computation whose outcome, and whose effect on seed and counter,
    depend on the seed and counter of the context only. *)
Definition stream_only {A} (c : SE context_t A) : Prop :=
  forall x y, same_stream x y ->
    fst (c x) = fst (c y) /\ same_stream (snd (c x)) (snd (c y)).

(* ================================================================== *)
(** ** Elemental matrices *)

(** [El::Orientation] *)
Inductive Orientation : Type := NORMAL | TRANSPOSE | ADJOINT.

Definition Orientation_eqb (a b : Orientation) : bool :=
  match a, b with
  | NORMAL, NORMAL | TRANSPOSE, TRANSPOSE | ADJOINT, ADJOINT => true
  | _, _ => false
  end.

(** [El::Matrix<double>] (and [elem::Matrix<double>]): a local matrix, its
    dimensions and its entries by row and column. *)
Record Matrix : Type := mk_Matrix {
  Height : Z;
  Width : Z;
  buffer : Z -> Z -> float }.

(** [base::Height] and [base::Width], overloaded over the matrix types. *)
Class MatrixType (M : Type) : Type := {
  base_Height : M -> Z;
  base_Width : M -> Z }.

#[global] Instance Matrix_MatrixType : MatrixType Matrix :=
  {| base_Height := Height; base_Width := Width |}.

(* ================================================================== *)
(** ** algorithms/regression: the interface least_squares.hpp is written
       against *)

(** [regression_problem_t<AT, linear_tag, l2_tag, no_reg_tag>], constructed
    as [problem(base::Height(A), base::Width(A), A)]. *)
Record regression_problem_t (AT : Type) : Type := mk_problem {
  problem_m : Z;
  problem_n : Z;
  input_matrix : AT }.
Arguments mk_problem {AT}.
Arguments problem_m {AT}.
Arguments problem_n {AT}.
Arguments input_matrix {AT}.

(** [sketched_regression_solver_t<..., sketch::FJLT_t, qr_l2_solver_tag>] for
    the matrix types [AT], [BT], [XT]: its constructor
    [solver(problem, sketch_size, context)], which draws from the context,
    and [solver.solve(B, X)], which writes [X] and may use the context the
    solver keeps a reference to. *)
Class SketchedSolver (AT BT XT : Type) : Type := {
  sketched_regression_solver_t : Type;
  sketched_solver_ctor :
    regression_problem_t AT -> Z -> SE context_t sketched_regression_solver_t;
  sketched_solve : sketched_regression_solver_t -> BT -> SE (XT * context_t) unit }.

(** [accelerated_regression_solver_t<ptype, BT, XT,
    blendenpik_tag<qr_precond_tag>>]: [solver(problem, context)] and
    [solver.solve(B, X)]. *)
Class AcceleratedSolver (AT BT XT : Type) : Type := {
  accelerated_regression_solver_t : Type;
  accelerated_solver_ctor :
    regression_problem_t AT -> SE context_t accelerated_regression_solver_t;
  accelerated_solve :
    accelerated_regression_solver_t -> BT -> SE (XT * context_t) unit }.

(** A computation on the context, run where the caller's [X] is in scope
    as well. *)
Definition on_context {XT A} (c : SE context_t A) : SE (XT * context_t) A :=
  fun '(X, context) =>
    match c context with
    | (r, context') => (r, (X, context'))
    end.

(* ================================================================== *)
(** ** nla/least_squares.hpp *)

Section LeastSquares.
  Context {AT BT XT : Type} `{MT : MatrixType AT}.

(** [ApproximateLeastSquares(orientation, A, B, X, context, sketch_size)],
    for local matrices and for distributed ones: the two overloads have
    the same body and differ in the types the solver is instantiated at. *)
Definition ApproximateLeastSquares `{SS : SketchedSolver AT BT XT}
    (orientation : Orientation) (A : AT) (B : BT) (sketch_size : Z)
  : SE (XT * context_t) unit :=
  if negb (Orientation_eqb orientation NORMAL)
  then throw (nla_exception
         "Only NORMAL orientation is supported for ApproximateLeastSquares")
  else
    let sketch_size :=
      if sketch_size =? -1 then to_int (4 * base_Width A) else sketch_size in
    let problem := mk_problem (base_Height A) (base_Width A) A in
    solver <~ on_context (sketched_solver_ctor problem sketch_size) ;;
    sketched_solve solver B.

(** The default argument [int sketch_size = -1]. *)
Definition default_sketch_size : Z := -1.

(** [FastLeastSquares(orientation, A, B, X, context)] *)
Definition FastLeastSquares `{AS : AcceleratedSolver AT BT XT}
    (orientation : Orientation) (A : AT) (B : BT)
  : SE (XT * context_t) unit :=
  if negb (Orientation_eqb orientation NORMAL)
  then throw (sketch_exception
         "Only NORMAL orientation is supported for FastLeastSquares")
  else
    let problem := mk_problem (base_Height A) (base_Width A) A in
    solver <~ on_context (accelerated_solver_ctor problem) ;;
    accelerated_solve solver B.

End LeastSquares.

(** Solvers to run the entry points on: the sketched one draws
    [sketch_size * height] samples when constructed, the accelerated one
    [4 * width * height]; both solve by copying [B] into [X]. *)
Module StandinSolver.

#[export] Instance sketched : SketchedSolver Matrix Matrix Matrix := {|
  sketched_regression_solver_t := Z;
  sketched_solver_ctor := fun problem sketch_size =>
    a <~ allocate_random_samples_array
           (to_size_t (sketch_size * problem_m problem)) mk_rademacher
           (H := Standin.rademacher_randgen) ;;
    ret sketch_size;
  sketched_solve := fun _ B '(_, context) => (Return tt, (B, context)) |}.

#[export] Instance accelerated : AcceleratedSolver Matrix Matrix Matrix := {|
  accelerated_regression_solver_t := Z;
  accelerated_solver_ctor := fun problem =>
    a <~ allocate_random_samples_array
           (to_size_t (4 * problem_n problem * problem_m problem)) mk_rademacher
           (H := Standin.rademacher_randgen) ;;
    ret (4 * problem_n problem);
  accelerated_solve := fun _ B '(_, context) => (Return tt, (B, context)) |}.

Definition zeros (h w : Z) : Matrix := mk_Matrix h w (fun _ _ => 0%float).

Definition ones (h w : Z) : Matrix := mk_Matrix h w (fun _ _ => 1%float).

End StandinSolver.

(* ================================================================== *)
(** ** Elemental: entries of a local matrix, distributed matrices

Elemental is external.  [Get] and [Set] outside the matrix are reported
by a [std::logic_error] (Elemental checks the indices in its debug
build), the exception the [apply] functions below catch. *)

Definition in_matrix (M : Matrix) (i j : Z) : bool :=
  (0 <=? i) && (i <? Height M) && (0 <=? j) && (j <? Width M).

Definition Matrix_Get (i j : Z) : SE Matrix float :=
  fun M =>
    if in_matrix M i j then (Return (buffer M i j), M)
    else (Throw (std_logic_error "Entry out of bounds"), M).

Definition Matrix_Set (i j : Z) (alpha : float) : SE Matrix unit :=
  fun M =>
    if in_matrix M i j
    then (Return tt,
          mk_Matrix (Height M) (Width M)
            (fun i' j' => if (i' =? i) && (j' =? j) then alpha else buffer M i' j'))
    else (Throw (std_logic_error "Entry out of bounds"), M).

(** [elem::Zeros(M, m, n)] *)
Definition Zeros (m n : Z) : Matrix := mk_Matrix m n (fun _ _ => 0%float).

(** [v[i]] on a [std::vector<double>]. *)
Definition vector_at {St} (v : list float) (i : Z) : SE St float :=
  match (if 0 <=? i then v !! Z.to_nat i else None) with
  | Some x => ret x
  | None => throw (undefined_vector_access i)
  end.

(** [elem::Distribution] *)
Inductive Distribution_tag : Type := MC | MD | MR | VC | VR | STAR | CIRC.

(** [elem::DistMatrix<double, ColDist, elem::STAR>] with [ColDist] one of
    [VC], [VR]: a matrix whose rows are dealt to the processes of the grid,
    row [i] to the process of (vector) rank [i mod p], which stores it as
    its local row [i / p].  The record is the matrix as a whole; a process
    sees its local matrix. *)
Record DistMatrix : Type := mk_DistMatrix {
  Grid_size : Z;
  global : Matrix }.

#[global] Instance DistMatrix_MatrixType : MatrixType DistMatrix :=
  {| base_Height := fun A => Height (global A);
     base_Width := fun A => Width (global A) |}.

(** Elemental's [Length(n, shift, stride)]: how many of [0 .. n-1] are
    [shift], [shift + stride], ... *)
Definition Length (n shift stride : Z) : Z :=
  if shift <? n then (n - shift - 1) / stride + 1 else 0.

(** [A.Matrix()] on the process of rank [rank]. *)
Definition LocalMatrix (A : DistMatrix) (rank : Z) : Matrix :=
  mk_Matrix (Length (Height (global A)) rank (Grid_size A))
            (Width (global A))
            (fun iLoc j => buffer (global A) (rank + iLoc * Grid_size A) j).

(** The distributed matrix after the process of rank [rank] has left [Al] in
    its local matrix. *)
Definition with_LocalMatrix (A : DistMatrix) (rank : Z) (Al : Matrix) : DistMatrix :=
  mk_DistMatrix (Grid_size A)
    (mk_Matrix (Height (global A)) (Width (global A))
       (fun i j =>
          if i mod Grid_size A =? rank then buffer Al (i / Grid_size A) j
          else buffer (global A) i j)).

(** Work on [Matrix& Al = sketch_of_A.Matrix()]. *)
Definition on_LocalMatrix {A} (rank : Z) (c : SE Matrix A) : SE DistMatrix A :=
  fun sketch_of_A =>
    match c (LocalMatrix sketch_of_A rank) with
    | (r, Al) => (r, with_LocalMatrix sketch_of_A rank Al)
    end.

(** [sketch_of_A_CIRC_CIRC.Matrix()] after [sketch_of_A_CIRC_CIRC =
    sketch_of_A_CD_STAR]: the root of the grid holds the whole matrix, the
    other processes an empty one. *)
Definition CIRC_CIRC_Matrix (sketch_of_A_CD_STAR : DistMatrix) (grid_rank : Z)
  : Matrix :=
  if grid_rank =? 0 then global sketch_of_A_CD_STAR else Zeros 0 0.

(* ================================================================== *)
(** ** sketch/transforms.hpp, dense_transform_*.hpp: the interface
       RFT_Elemental.hpp is written against *)

(** [columnwise_tag] and [rowwise_tag] *)
Inductive Dimension : Type := columnwise_tag | rowwise_tag.

(** [dense_transform_t<InputType, elem::Matrix, ...> underlying(data);
    underlying.apply(A, sketch_of_A, tag)], on the caller's [sketch_of_A]. *)
Class DenseTransform (Data InputType : Type) : Type := {
  dense_apply : Data -> InputType -> Dimension -> SE Matrix unit }.

(** [dense_transform_t<DistMatrix, DistMatrix, ...> transform(data);
    transform.apply(A, sketch_of_A, tag)], a collective operation on the
    distributed [sketch_of_A]. *)
Class DistDenseTransform (Data : Type) : Type := {
  dist_dense_apply : Data -> DistMatrix -> Dimension -> SE DistMatrix unit }.

(** The [catch] clauses of the [apply] functions. *)
Definition rethrow (e : exception) : option exception :=
  match e with
  | std_logic_error what => Some (elemental_exception what)
  | boost_mpi_exception what => Some (mpi_exception what)
  | _ => None
  end.

(* ================================================================== *)
(** ** sketch/RFT_data.hpp: the members RFT_Elemental.hpp reads *)

Record RFT_data_t (Data : Type) : Type := mk_RFT_data {
  _N : Z;
  _S : Z;
  _val_scale : float;
  _scale : float;
  _shifts : list float;
  _underlying_data : Data }.
Arguments mk_RFT_data {Data}.
Arguments _N {Data}.
Arguments _S {Data}.
Arguments _val_scale {Data}.
Arguments _scale {Data}.
Arguments _shifts {Data}.
Arguments _underlying_data {Data}.

(* ================================================================== *)
(** ** sketch/RFT_Elemental.hpp *)

Section RFT.
  Context {Data : Type} `{LM : Libm}.

(** The body of the loops:
    [val = M.Get(i, j);
     trans = _scale * std::cos((val * _val_scale) + _shifts[k]);
     M.Set(i, j, trans);] *)
Definition transform_entry (d : RFT_data_t Data) (i j k : Z) : SE Matrix unit :=
  val <~ Matrix_Get i j ;;
  shift <~ vector_at (_shifts d) k ;;
  let trans := (_scale d * cos ((val * _val_scale d) + shift))%float in
  Matrix_Set i j trans.

(** *** Local input, local output *)
Section Local.
  Context {InputType : Type} `{MT : MatrixType InputType}
          `{DT : DenseTransform Data InputType}.

Definition apply_impl_columnwise (d : RFT_data_t Data) (A : InputType)
  : SE Matrix unit :=
  dense_apply (_underlying_data d) A columnwise_tag ;;;
  for_loop 0 (base_Width A) (fun j =>
    for_loop 0 (_S d) (fun i =>
      transform_entry d i j i)).

Definition apply_impl_rowwise (d : RFT_data_t Data) (A : InputType)
  : SE Matrix unit :=
  dense_apply (_underlying_data d) A rowwise_tag ;;;
  for_loop 0 (_S d) (fun j =>
    for_loop 0 (base_Height A) (fun i =>
      transform_entry d i j j)).

(** Overload resolution on the tag. *)
Definition apply_impl (d : RFT_data_t Data) (A : InputType) (tag : Dimension)
  : SE Matrix unit :=
  match tag with
  | columnwise_tag => apply_impl_columnwise d A
  | rowwise_tag => apply_impl_rowwise d A
  end.

Definition RFT_apply (d : RFT_data_t Data) (A : InputType) (dimension : Dimension)
  : SE Matrix unit :=
  try_catch (apply_impl d A dimension) rethrow.

End Local.

(** *** Distributed input and output in [[ColDist, *]], as run by the
    process of rank [rank]. *)
Section Dist.
  Context `{DDT : DistDenseTransform Data}.

Definition apply_impl_vdist_columnwise (d : RFT_data_t Data) (A : DistMatrix)
    (rank : Z) : SE DistMatrix unit :=
  dist_dense_apply (_underlying_data d) A columnwise_tag ;;;
  on_LocalMatrix rank (
    Al <~ get ;;
    for_loop 0 (Width Al) (fun j =>
      for_loop 0 (_S d) (fun i =>
        transform_entry d i j i))).

Definition apply_impl_vdist_rowwise (d : RFT_data_t Data) (A : DistMatrix)
    (rank : Z) : SE DistMatrix unit :=
  dist_dense_apply (_underlying_data d) A rowwise_tag ;;;
  on_LocalMatrix rank (
    Al <~ get ;;
    for_loop 0 (_S d) (fun j =>
      for_loop 0 (Height Al) (fun i =>
        transform_entry d i j j))).

Definition apply_impl_vdist (d : RFT_data_t Data) (A : DistMatrix)
    (tag : Dimension) (rank : Z) : SE DistMatrix unit :=
  match tag with
  | columnwise_tag => apply_impl_vdist_columnwise d A rank
  | rowwise_tag => apply_impl_vdist_rowwise d A rank
  end.

Definition RFT_apply_dist (ColDist : Distribution_tag) (d : RFT_data_t Data)
    (A : DistMatrix) (dimension : Dimension) (rank : Z) : SE DistMatrix unit :=
  match ColDist with
  | VR | VC => try_catch (apply_impl_vdist d A dimension rank) rethrow
  | _ => throw unsupported_matrix_distribution
  end.

  End Dist.
End RFT.

(* ================================================================== *)
(** ** sketch/dense_transform_Elemental_coldist_star_local.hpp

Distributed input in [[ColDist, *]], local output, as run by one
process: [world_rank] is its rank in [boost::mpi::communicator world],
[grid_rank] its rank in the grid of [A]. *)

Record process : Type := mk_process { world_rank : Z; grid_rank : Z }.

(** The members of [dense_transform_data_t] the transform reads. *)
Class DenseData (Data : Type) : Type := {
  data_N : Data -> Z;
  data_S : Data -> Z }.

Section DenseLocal.
  Context {Data : Type} `{DD : DenseData Data} `{DDT : DistDenseTransform Data}.

(** [apply_impl_vdist(A, sketch_of_A, rowwise_tag)]; the intermediate
    matrices are local variables, [sketch_of_A] is the caller's. *)
Definition dense_apply_impl_vdist_rowwise (data : Data) (A : DistMatrix)
    (me : process) : SE Matrix unit :=
  fun sketch_of_A =>
    let sketch_of_A_CD_STAR :=
      mk_DistMatrix (Grid_size A) (Zeros (base_Height A) (data_S data)) in
    match dist_dense_apply data A rowwise_tag sketch_of_A_CD_STAR with
    | (Return _, sketch_of_A_CD_STAR) =>
        let sketch_of_A_CIRC_CIRC :=
          CIRC_CIRC_Matrix sketch_of_A_CD_STAR (grid_rank me) in
        let rank := world_rank me in
        if rank =? 0
        then (Return tt, sketch_of_A_CIRC_CIRC)
        else (Return tt, sketch_of_A)
    | (Throw e, _) => (Throw e, sketch_of_A)
    end.

(** [apply_impl_vdist(A, sketch_of_A, columnwise_tag)] *)
Definition dense_apply_impl_vdist_columnwise (data : Data) (A : DistMatrix)
    (me : process) : SE Matrix unit :=
  fun sketch_of_A =>
    let sketch_of_A_CD_STAR :=
      mk_DistMatrix (Grid_size A) (Zeros (data_S data) (base_Width A)) in
    match dist_dense_apply data A columnwise_tag sketch_of_A_CD_STAR with
    | (Return _, sketch_of_A_CD_STAR) =>
        let sketch_of_A_CIRC_CIRC :=
          CIRC_CIRC_Matrix sketch_of_A_CD_STAR (grid_rank me) in
        let rank := world_rank me in
        if rank =? 0
        then (Return tt, sketch_of_A_CIRC_CIRC)
        else (Return tt, sketch_of_A)
    | (Throw e, _) => (Throw e, sketch_of_A)
    end.

Definition dense_apply_impl_vdist (data : Data) (A : DistMatrix)
    (tag : Dimension) (me : process) : SE Matrix unit :=
  match tag with
  | rowwise_tag => dense_apply_impl_vdist_rowwise data A me
  | columnwise_tag => dense_apply_impl_vdist_columnwise data A me
  end.

(** [dense_transform_t<DistMatrix<ColDist, STAR>, Matrix>::apply] *)
Definition dense_apply_to_local (ColDist : Distribution_tag) (data : Data)
    (A : DistMatrix) (dimension : Dimension) (me : process) : SE Matrix unit :=
  match ColDist with
  | VR | VC => try_catch (dense_apply_impl_vdist data A dimension me) rethrow
  | _ => throw unsupported_matrix_distribution
  end.

End DenseLocal.

(* ================================================================== *)
(** ** What the loops of RFT_Elemental.hpp are expected to leave *)

(** [_shifts[k]], where the vector has it. *)
Definition shift_of {Data} (d : RFT_data_t Data) (k : Z) : float :=
  default 0%float (_shifts d !! Z.to_nat k).

(** [_scale * cos(v * _val_scale + _shifts[k])] *)
Definition feature `{Libm} {Data} (d : RFT_data_t Data) (k : Z) (v : float) : float :=
  (_scale d * cos ((v * _val_scale d) + shift_of d k))%float.

(** [_shifts] has an entry of index [k]. *)
Definition shift_available {Data} (d : RFT_data_t Data) (k : Z) : Prop :=
  0 <= k < Z.of_nat (length (_shifts d)).

(** The descriptor has one shift per output coordinate. *)
Definition shifts_sized {Data} (d : RFT_data_t Data) : Prop :=
  Z.of_nat (length (_shifts d)) = _S d.

(** The shift index at entry [(i, j)]: the output row when applying
    columnwise, the output column when applying rowwise. *)
Definition shift_index (tag : Dimension) (i j : Z) : Z :=
  match tag with
  | columnwise_tag => i
  | rowwise_tag => j
  end.

(** The dimensions of the projection of [A] by a transform of output
    dimension [S]. *)
Definition projected (tag : Dimension) (S hA wA : Z) (P : Matrix) : Prop :=
  match tag with
  | columnwise_tag => Height P = S /\ Width P = wA /\ 0 <= wA
  | rowwise_tag => Height P = hA /\ Width P = S /\ 0 <= hA
  end.

(** The zero matrix the dense transform starts its intermediate result
    from. *)
Definition intermediate `{DenseData Data} (data : Data) (A : DistMatrix)
    (tag : Dimension) : DistMatrix :=
  match tag with
  | rowwise_tag => mk_DistMatrix (Grid_size A) (Zeros (base_Height A) (data_S data))
  | columnwise_tag => mk_DistMatrix (Grid_size A) (Zeros (data_S data) (base_Width A))
  end.

(* ================================================================== *)
(** ** A dense transform to run the model on

    The transform data is the [S x N] table of coefficients; the local and
    the distributed transform both compute the product with it, the
    distributed one leaving it in the distributed output. *)
Module StandinDense.

Definition dot (n : Z) (f g : Z -> float) : float :=
  fold_left (fun acc k => (acc + f k * g k)%float) (int_range 0 n) 0%float.

Definition project (R A : Matrix) (tag : Dimension) : Matrix :=
  match tag with
  | columnwise_tag =>
      mk_Matrix (Height R) (Width A)
        (fun i j => dot (Width R) (fun k => buffer R i k) (fun k => buffer A k j))
  | rowwise_tag =>
      mk_Matrix (Height A) (Height R)
        (fun i j => dot (Width R) (fun k => buffer A i k) (fun k => buffer R j k))
  end.

#[export] Instance data : DenseData Matrix :=
  {| data_N := Width; data_S := Height |}.

#[export] Instance local : DenseTransform Matrix Matrix :=
  {| dense_apply := fun R A tag _ => (Return tt, project R A tag) |}.

#[export] Instance dist : DistDenseTransform Matrix :=
  {| dist_dense_apply := fun R A tag _ =>
       (Return tt, mk_DistMatrix (Grid_size A) (project R (global A) tag)) |}.

(** A matrix given by its rows. *)
Definition of_rows (m n : Z) (rows : list (list float)) : Matrix :=
  mk_Matrix m n (fun i j =>
    default 0%float (row ← rows !! Z.to_nat i; row !! Z.to_nat j)).

Definition identity2 : Matrix := of_rows 2 2 [[1; 0]; [0; 1]]%float.

(** A 2 x 1 input and a descriptor with [S = 2] and two different shifts. *)
Definition A21 : Matrix := of_rows 2 1 [[1]; [2]]%float.

Definition rft2 : RFT_data_t Matrix :=
  mk_RFT_data 2 2 1%float 1%float [0.25; 0.5]%float identity2.

(** A 3 x 2 input for rowwise application. *)
Definition A32 : Matrix := of_rows 3 2 [[1; 2]; [3; 4]; [5; 6]]%float.

End StandinDense.

(* ================================================================== *)
(** ** Collaborators that fail, to run the error paths on *)

(** Array constructors that refuse a range reaching past the [2^64]
    offsets of a seed, with the samples of [Standin]. *)
Module StandinChecked.

Definition range_what (base size : Z) : option string :=
  if base + size <=? size_t_modulus then None else Some "counter overflow"%string.

#[export] Instance exponential_randgen : Randgen exponential_distribution float := {|
  samples_ctor_what := fun base size _ _ => range_what base size;
  draw := draw (Randgen := Standin.exponential_randgen) |}.

#[export] Instance int_randgen : RandgenInt := {|
  array_ctor_what := fun base size _ => range_what base size;
  draw_int := Standin.mix |}.

(** A context of seed 7 two offsets before the end. *)
Definition near_the_end : context_t :=
  snd (allocate_random_array (2 ^ 64 - 2) (context_t_ctor 7 Standin.world)).

End StandinChecked.

(** The dense transform of [StandinDense] behind a test that the table and
    the input conform, reported as Elemental's Gemm reports it. *)
Module StandinGemm.

Definition conformal (R A : Matrix) (tag : Dimension) : bool :=
  match tag with
  | columnwise_tag => Width R =? Height A
  | rowwise_tag => Width R =? Width A
  end.

#[export] Instance data : DenseData Matrix :=
  {| data_N := Width; data_S := Height |}.

#[export] Instance local : DenseTransform Matrix Matrix :=
  {| dense_apply := fun R A tag sketch_of_A =>
       if conformal R A tag
       then (Return tt, StandinDense.project R A tag)
       else (Throw (std_logic_error "Nonconformal Gemm"), sketch_of_A) |}.

#[export] Instance dist : DistDenseTransform Matrix :=
  {| dist_dense_apply := fun R A tag sketch_of_A =>
       if conformal R (global A) tag
       then (Return tt,
             mk_DistMatrix (Grid_size A) (StandinDense.project R (global A) tag))
       else (Throw (std_logic_error "Nonconformal Gemm"), sketch_of_A) |}.

End StandinGemm.

(* ================================================================== *)
(** * Properties *)

(** ** The monad *)

Lemma bind_Return {St A B} (c : SE St A) (k : A -> SE St B) s a s' :
  c s = (Return a, s') -> bind c k s = k a s'.
Proof. intros E. unfold bind. now rewrite E. Qed.

Lemma bind_Throw {St A B} (c : SE St A) (k : A -> SE St B) s e s' :
  c s = (Throw e, s') -> bind c k s = (Throw e, s').
Proof. intros E. unfold bind. now rewrite E. Qed.

Lemma bind_inv_Return {St A B} (c : SE St A) (k : A -> SE St B) s b s2 :
  bind c k s = (Return b, s2) ->
  exists a s1, c s = (Return a, s1) /\ k a s1 = (Return b, s2).
Proof.
  unfold bind. destruct (c s) as [[a|e] s1]; intros E.
  - now exists a, s1.
  - discriminate.
Qed.

(** ** size_t arithmetic *)

Lemma to_size_t_range z : 0 <= to_size_t z < size_t_modulus.
Proof. unfold to_size_t, size_t_modulus. apply Z.mod_pos_bound. lia. Qed.

Lemma to_size_t_small z : 0 <= z < size_t_modulus -> to_size_t z = z.
Proof. unfold to_size_t. intros. now apply Z.mod_small. Qed.

(** Which sample of an array uses offset [o]. *)
Lemma in_reserved_spec base size o :
  size <= size_t_modulus ->
  in_reserved base size o = true <->
  exists i, 0 <= i < size /\ o = to_size_t (base + i).
Proof.
  intros Hs. unfold in_reserved.
  rewrite !andb_true_iff, Z.leb_le, !Z.ltb_lt. split.
  - intros [[H0 H1] H2]. exists (to_size_t (o - base)). split.
    + pose proof (to_size_t_range (o - base)). lia.
    + unfold to_size_t. rewrite Zplus_mod_idemp_r.
      replace (base + (o - base)) with o by lia.
      symmetry. apply Z.mod_small. lia.
  - intros (i & Hi & ->). pose proof (to_size_t_range (base + i)) as Hr.
    repeat split; try lia.
    unfold to_size_t. rewrite Zminus_mod_idemp_l.
    replace (base + i - base) with i by lia.
    rewrite Z.mod_small; lia.
Qed.

(** Without wrap-around the offsets are the interval [[base, base+size)]. *)
Lemma in_reserved_interval base size o :
  0 <= base -> base + size <= size_t_modulus ->
  in_reserved base size o = true <-> base <= o < base + size.
Proof.
  intros Hb Hs. unfold in_reserved, to_size_t, size_t_modulus in *.
  rewrite !andb_true_iff, Z.leb_le, !Z.ltb_lt.
  pose proof (Z.mod_pos_bound (o - base) (2 ^ 64) ltac:(lia)) as Hm.
  destruct (Z_le_gt_dec base o) as [Hle | Hgt].
  - destruct (Z_lt_ge_dec o (2 ^ 64)) as [Hlt | Hge]; [| lia].
    rewrite (Z.mod_small (o - base)) by lia. lia.
  - split; [| lia]. intros [[H0 H1] H2].
    assert ((o - base) mod 2 ^ 64 = o - base + 2 ^ 64) as E.
    { symmetry. apply (Z.mod_unique _ _ (-1)); lia. }
    lia.
Qed.

(** ** context.hpp: what one allocation does *)

Section Allocation.
  Context {Distribution ValueType : Type} `{RG : Randgen Distribution ValueType}.

Lemma allocate_samples_Return size (d : Distribution) ctx a ctx' :
  allocate_random_samples_array size d ctx = (Return a, ctx') ->
  a = mk_random_samples_array (_counter ctx) size (_seed ctx) d
  /\ ctx' = set_counter (to_size_t (_counter ctx + size)) ctx.
Proof.
  unfold allocate_random_samples_array.
  destruct (samples_ctor_what _ _ _ _); intros E; inversion E; auto.
Qed.

Lemma allocate_samples_Throw size (d : Distribution) ctx e ctx' :
  allocate_random_samples_array size d ctx = (Throw e, ctx') -> ctx' = ctx.
Proof.
  unfold allocate_random_samples_array.
  destruct (samples_ctor_what _ _ _ _); intros E; inversion E; auto.
Qed.

End Allocation.

Lemma allocate_array_Return `{RandgenInt} size ctx a ctx' :
  allocate_random_array size ctx = (Return a, ctx') ->
  a = mk_random_array (_counter ctx) size (_seed ctx)
  /\ ctx' = set_counter (to_size_t (_counter ctx + size)) ctx.
Proof.
  unfold allocate_random_array.
  destruct (array_ctor_what _ _ _); intros E; inversion E; auto.
Qed.

Lemma allocates_inv ctx size ctx' base asize :
  allocates ctx size ctx' base asize ->
  base = _counter ctx /\ asize = size
  /\ ctx' = set_counter (to_size_t (_counter ctx + size)) ctx.
Proof.
  intros [D V RG d a E -> -> | RI a E -> ->].
  - apply allocate_samples_Return in E as [-> ->]. auto.
  - apply allocate_array_Return in E as [-> ->]. auto.
Qed.

(** ** Successive allocations (C2) *)

(** C2, as amended: for two successive allocations of sizes [s1] and [s2]
    from a context whose counter is [c], by either allocation function, and
    as long as the 64-bit counter does not wrap ([c + s1 + s2 < 2^64]): the
    first array has exactly the offsets [[c, c+s1)] and leaves the counter at
    [c+s1], the second has exactly [[c+s1, c+s1+s2)] and leaves the counter
    at [c+s1+s2], and no offset belongs to both. *)
Theorem successive_allocations_disjoint ctx s1 ctx1 b1 z1 s2 ctx2 b2 z2 :
  counter_in_range ctx -> 0 <= s1 -> 0 <= s2 ->
  _counter ctx + s1 + s2 < size_t_modulus ->
  allocates ctx s1 ctx1 b1 z1 ->
  allocates ctx1 s2 ctx2 b2 z2 ->
  (forall o, in_reserved b1 z1 o = true <-> _counter ctx <= o < _counter ctx + s1)
  /\ _counter ctx1 = _counter ctx + s1
  /\ (forall o, in_reserved b2 z2 o = true <->
                _counter ctx + s1 <= o < _counter ctx + s1 + s2)
  /\ _counter ctx2 = _counter ctx + s1 + s2
  /\ (forall o, in_reserved b1 z1 o && in_reserved b2 z2 o = false).
Proof.
  intros [Hc0 Hc1] Hs1 Hs2 Hsum A1 A2.
  apply allocates_inv in A1 as (-> & -> & ->).
  apply allocates_inv in A2 as (-> & -> & ->).
  cbn [_counter set_counter].
  rewrite (to_size_t_small (_counter ctx + s1)) by lia.
  rewrite (to_size_t_small (_counter ctx + s1 + s2)) by lia.
  assert (forall o, in_reserved (_counter ctx) s1 o = true <->
                    _counter ctx <= o < _counter ctx + s1) as R1.
  { intros o. apply in_reserved_interval; lia. }
  assert (forall o, in_reserved (_counter ctx + s1) s2 o = true <->
                    _counter ctx + s1 <= o < _counter ctx + s1 + s2) as R2.
  { intros o. apply in_reserved_interval; lia. }
  repeat split; try apply R1; try apply R2; auto.
  intros o. apply andb_false_iff.
  destruct (in_reserved (_counter ctx) s1 o) eqn:E1; [right | now left].
  destruct (in_reserved (_counter ctx + s1) s2 o) eqn:E2; [| reflexivity].
  apply R1 in E1. apply R2 in E2. lia.
Qed.

Section Allocation_examples.
Import Standin.

(** C2 at a context of seed 42: 3 exponential samples, then 5 integers. *)
Lemma successive_allocations_disjoint_witness :
  _counter
    (snd (allocate_random_array 5
       (snd (allocate_random_samples_array 3 mk_exponential
          (context_t_ctor 42 Standin.world))))) = 8.
Proof.
  refine (proj1 (proj2 (proj2 (proj2
    (successive_allocations_disjoint
       (context_t_ctor 42 Standin.world) 3
       (snd (allocate_random_samples_array 3 mk_exponential
          (context_t_ctor 42 Standin.world))) 0 3
       5 _ 3 5 _ _ _ _ _ _))))).
  - unfold counter_in_range, size_t_modulus. simpl. lia.
  - lia.
  - lia.
  - unfold size_t_modulus. simpl. lia.
  - eapply (allocates_samples _ _ _ _ _ mk_exponential); reflexivity.
  - eapply allocates_array; reflexivity.
Defined.

(** C2 as stated fails when the counter wraps: from a fresh context, an
    allocation of [2^64 - 1] samples followed by one of [2] leaves the
    counter at [1], not at [2^64 + 1], and offset [0] belongs to both
    arrays. *)
Lemma allocation_counter_wraps :
  exists a1 ctx1 a2 ctx2,
    allocate_random_samples_array (2 ^ 64 - 1) mk_exponential
      (context_t_ctor 0 Standin.world) = (Return a1, ctx1)
    /\ allocate_random_samples_array 2 mk_exponential ctx1 = (Return a2, ctx2)
    /\ _counter ctx1 = 2 ^ 64 - 1
    /\ _counter ctx2 = 1
    /\ (_counter ctx2 =? _counter ctx1 + 2) = false
    /\ reserved_by a1 0 = true
    /\ reserved_by a2 0 = true.
Proof.
  do 4 eexists. split; [reflexivity |]. split; [reflexivity |].
  repeat split; vm_compute; reflexivity.
Qed.

End Allocation_examples.

Lemma allocation_run_total_nonneg ctx arrays ctx' :
  allocation_run ctx arrays ctx' -> 0 <= total_size arrays.
Proof.
  induction 1 as [ctx | ctx size ctx1 base asize rest ctx2 Hsize Halloc Hrun IH];
    cbn [total_size fold_right snd]; [lia |].
  fold (total_size rest). apply allocates_inv in Halloc as (_ & -> & _). lia.
Qed.

(** Any number of allocations: while the counter does not wrap, the run
    leaves the counter advanced by the total size, and every array lies
    between the counter before the run and the counter after it. *)
Lemma allocation_run_bounds ctx arrays ctx' :
  allocation_run ctx arrays ctx' ->
  counter_in_range ctx ->
  _counter ctx + total_size arrays < size_t_modulus ->
  _counter ctx' = _counter ctx + total_size arrays
  /\ 0 <= total_size arrays
  /\ Forall (fun a => _counter ctx <= fst a /\ 0 <= snd a
                      /\ fst a + snd a <= _counter ctx') arrays.
Proof.
  induction 1 as [ctx | ctx size ctx1 base asize rest ctx2 Hsize Halloc Hrun IH];
    intros Hrange Hsum.
  - cbn. repeat split; try lia. constructor.
  - cbn [total_size fold_right snd] in *. fold (total_size rest) in *.
    apply allocates_inv in Halloc as (-> & -> & ->).
    unfold counter_in_range in *. cbn [_counter set_counter] in IH.
    pose proof (allocation_run_total_nonneg _ _ _ Hrun) as Hpos.
    rewrite to_size_t_small in IH by lia.
    destruct IH as (Hc & _ & Hall); [lia | lia |].
    split; [lia | split; [lia |]].
    constructor.
    + cbn [fst snd]. lia.
    + eapply Forall_impl; [exact Hall |]. cbn. intros a Ha. lia.
Qed.

(** X3: no offset is reused across the allocations of a run, while the
    counter does not wrap. *)
Lemma allocation_run_disjoint ctx arrays ctx' :
  allocation_run ctx arrays ctx' ->
  counter_in_range ctx ->
  _counter ctx + total_size arrays < size_t_modulus ->
  forall (i j : nat) a1 a2, i <> j ->
    arrays !! i = Some a1 -> arrays !! j = Some a2 ->
    forall o, in_reserved (fst a1) (snd a1) o && in_reserved (fst a2) (snd a2) o
              = false.
Proof.
  induction 1 as [ctx | ctx size ctx1 base asize rest ctx2 Hsize Halloc Hrun IH];
    intros Hrange Hsum i j a1 a2 Hij H1 H2 o.
  - discriminate.
  - pose proof Halloc as Hinv. apply allocates_inv in Hinv as (Hb & Hz & Hctx1).
    cbn [total_size fold_right snd] in Hsum. fold (total_size rest) in Hsum.
    pose proof (allocation_run_total_nonneg _ _ _ Hrun) as Hnn.
    unfold counter_in_range in Hrange.
    assert (_counter ctx1 = _counter ctx + size) as Hc1.
    { rewrite Hctx1. cbn [_counter set_counter]. apply to_size_t_small. lia. }
    assert (counter_in_range ctx1) as Hrange1 by (unfold counter_in_range; lia).
    destruct (allocation_run_bounds _ _ _ Hrun Hrange1 ltac:(lia)) as (Hc2 & _ & Hall).
    assert (forall a, In a rest ->
              forall o, in_reserved base asize o && in_reserved (fst a) (snd a) o
                        = false) as Hfirst.
    { intros a Ha o'. rewrite Forall_forall in Hall.
      destruct (Hall a ltac:(now apply list_elem_of_In)) as (Ha1 & Ha2 & Ha3).
      apply andb_false_iff.
      destruct (in_reserved base asize o') eqn:E1; [right | now left].
      destruct (in_reserved (fst a) (snd a) o') eqn:E2; [| reflexivity].
      apply in_reserved_interval in E1; [| lia | lia].
      apply in_reserved_interval in E2; [| lia | lia].
      lia. }
    destruct i as [| i], j as [| j]; cbn in H1, H2.
    + congruence.
    + inversion H1; subst a1. cbn [fst snd]. apply Hfirst.
      apply list_elem_of_In. eapply list_elem_of_lookup_2. exact H2.
    + inversion H2; subst a2. cbn [fst snd]. rewrite andb_comm. apply Hfirst.
      apply list_elem_of_In. eapply list_elem_of_lookup_2. exact H1.
    + eapply (IH Hrange1 ltac:(lia) i j); eauto.
Qed.

(** ** Determinism of an allocation (C3) *)

(** C3: two allocations of the same size and distribution from contexts
    with the same seed and the same counter, whatever else differs in them
    (communicator, rank, the allocations that led to the counter), have the
    same outcome and leave the same counter, and sample [i] of the array is
    the generator's value at [(seed, counter + i)]. *)
Theorem allocation_deterministic {Distribution ValueType}
    `{Randgen Distribution ValueType}
    (ctx1 ctx2 : context_t) (size : Z) (d : Distribution) :
  _seed ctx1 = _seed ctx2 ->
  _counter ctx1 = _counter ctx2 ->
  fst (allocate_random_samples_array size d ctx1)
  = fst (allocate_random_samples_array size d ctx2)
  /\ _counter (snd (allocate_random_samples_array size d ctx1))
     = _counter (snd (allocate_random_samples_array size d ctx2))
  /\ (forall a1 a2 ctx1' ctx2',
        allocate_random_samples_array size d ctx1 = (Return a1, ctx1') ->
        allocate_random_samples_array size d ctx2 = (Return a2, ctx2') ->
        forall i, samples_at a1 i = samples_at a2 i
                  /\ samples_at a1 i
                     = draw d (_seed ctx1) (to_size_t (_counter ctx1 + i))).
Proof.
  intros Hseed Hctr. unfold allocate_random_samples_array.
  rewrite <- Hseed, <- Hctr.
  destruct (samples_ctor_what (_counter ctx1) size (_seed ctx1) d) eqn:E.
  - repeat split; auto; intros; discriminate.
  - cbn [fst snd _counter set_counter].
    split; [reflexivity |]. split; [reflexivity |].
    intros a1 a2 c1 c2 E1 E2 i.
    inversion E1; subst. inversion E2; subst. split; reflexivity.
Qed.

Section Determinism_examples.
Import Standin.

(** C3 on two ranks: one context reached its counter by allocations of 3
    and 5 samples, the other by a single allocation of 8. *)
Lemma allocation_deterministic_witness :
  fst (allocate_random_samples_array 4 mk_exponential after_3_and_5)
  = fst (allocate_random_samples_array 4 mk_exponential after_8).
Proof.
  exact (proj1 (allocation_deterministic after_3_and_5 after_8 4 mk_exponential
                  eq_refl eq_refl)).
Defined.

End Determinism_examples.

(** ** Loops *)

Lemma int_range_0 n : int_range 0 n = map Z.of_nat (seq 0 (Z.to_nat n)).
Proof. unfold int_range. rewrite Z.sub_0_r. now apply map_ext. Qed.

Lemma for_each_cons {St} (body : Z -> SE St unit) i rest s s' :
  body i s = (Return tt, s') ->
  for_each body (i :: rest) s = for_each body rest s'.
Proof. intros E. cbn [for_each]. unfold bind. now rewrite E. Qed.

Lemma for_each_app_Throw {St} (body : Z -> SE St unit) l1 i l2 s s1 e s2 :
  for_each body l1 s = (Return tt, s1) ->
  body i s1 = (Throw e, s2) ->
  for_each body (l1 ++ i :: l2) s = (Throw e, s2).
Proof.
  revert s. induction l1 as [| a l1 IH]; intros s E1 E2; cbn [app for_each] in *.
  - inversion E1; subst s1. unfold bind. now rewrite E2.
  - unfold bind in *. destruct (body a s) as [[[] | e'] s'].
    + now apply IH.
    + discriminate.
Qed.

(** ** WZT_data.hpp: the loop of [_populate] *)

Section WZT_populate.
  Context `{LM : Libm}.

Lemma rescale_step pmvals P (k : nat) (v : list float) pm e :
  pmvals !! k = Some pm -> v !! k = Some e ->
  rescale pmvals P (Z.of_nat k) v = (Return tt, <[k := rescaled P pm e]> v).
Proof.
  intros Hpm He. unfold rescale, bind, get. rewrite Nat2Z.id, Hpm, He.
  reflexivity.
Qed.

(** Running the loop over the indices [k, k+1, ..., k+n-1]: it returns,
    keeps the length, replaces each of these entries once, by the rescaled
    original entry, and leaves the others. *)
Lemma for_each_rescale pmvals P (n k : nat) (v : list float) :
  (k + n <= length pmvals)%nat -> (k + n <= length v)%nat ->
  exists v',
    for_each (rescale pmvals P) (map Z.of_nat (seq k n)) v = (Return tt, v')
    /\ length v' = length v
    /\ forall j : nat,
        v' !! j =
        if (k <=? j)%nat && (j <? k + n)%nat
        then pm ← pmvals !! j; e ← v !! j; Some (rescaled P pm e)
        else v !! j.
Proof.
  revert k v. induction n as [| n IH]; intros k v Hpm Hv.
  - exists v. cbn [seq map for_each]. split; [reflexivity |]. split; [reflexivity |].
    intros j.
    destruct (k <=? j)%nat eqn:E1; destruct (j <? k + 0)%nat eqn:E2;
      cbn [andb]; auto.
    apply Nat.leb_le in E1. apply Nat.ltb_lt in E2. lia.
  - destruct (lookup_lt_is_Some_2 pmvals k ltac:(lia)) as [pm Epm].
    destruct (lookup_lt_is_Some_2 v k ltac:(lia)) as [e Ee].
    destruct (IH (S k) (<[k := rescaled P pm e]> v)) as (v' & Erun & Hlen & Hget).
    { lia. }
    { rewrite length_insert. lia. }
    exists v'. split; [| split].
    + cbn [seq map]. rewrite (for_each_cons _ _ _ _ _ (rescale_step _ _ _ _ _ _ Epm Ee)).
      exact Erun.
    + now rewrite Hlen, length_insert.
    + intros j. rewrite Hget.
      destruct (Nat.eq_dec j k) as [-> | Hne].
      * replace (S k <=? k)%nat with false by (symmetry; apply Nat.leb_gt; lia).
        replace (k <=? k)%nat with true by (symmetry; apply Nat.leb_le; lia).
        replace (k <? k + S n)%nat with true by (symmetry; apply Nat.ltb_lt; lia).
        cbn. rewrite list_lookup_insert_eq by (apply lookup_lt_Some in Ee; lia).
        now rewrite Epm, Ee.
      * rewrite list_lookup_insert_ne by auto.
        replace (k + S n)%nat with (S k + n)%nat by lia.
        destruct (S k <=? j)%nat eqn:E1; destruct (k <=? j)%nat eqn:E2; auto.
        -- apply Nat.leb_le in E1. apply Nat.leb_gt in E2. lia.
        -- apply Nat.leb_gt in E1. apply Nat.leb_le in E2. lia.
Qed.

Lemma populate_loop pmvals P N (v : list float) :
  0 <= N -> length pmvals = Z.to_nat N -> length v = Z.to_nat N ->
  exists v',
    for_loop 0 N (rescale pmvals P) v = (Return tt, v')
    /\ length v' = length v
    /\ forall i pm e, 0 <= i < N ->
         pmvals !! Z.to_nat i = Some pm -> v !! Z.to_nat i = Some e ->
         v' !! Z.to_nat i = Some (rescaled P pm e).
Proof.
  intros HN Hpm Hv. unfold for_loop. rewrite int_range_0.
  destruct (for_each_rescale pmvals P (Z.to_nat N) 0 v) as (v' & Erun & Hlen & Hget);
    [lia | lia |].
  exists v'. repeat split; auto.
  intros i pm e Hi Epm Ee. rewrite Hget, Epm, Ee.
  replace (0 <=? Z.to_nat i)%nat with true by (symmetry; apply Nat.leb_le; lia).
  replace (Z.to_nat i <? 0 + Z.to_nat N)%nat with true
    by (symmetry; apply Nat.ltb_lt; lia).
  reflexivity.
Qed.

End WZT_populate.

(** ** Reading an allocation into a vector *)

Lemma int_range_length lo hi : length (int_range lo hi) = Z.to_nat (hi - lo).
Proof. unfold int_range. now rewrite length_map, length_seq. Qed.

Lemma int_range_lookup {A} (f : Z -> A) n i :
  0 <= i < n -> map f (int_range 0 n) !! Z.to_nat i = Some (f i).
Proof.
  intros Hi. rewrite int_range_0, list_lookup_fmap, list_lookup_fmap.
  rewrite lookup_seq_lt by lia. cbn. f_equal. f_equal. lia.
Qed.

Section Generate.
  Context {Distribution ValueType : Type} `{RG : Randgen Distribution ValueType}.

Lemma generate_Return size (d : Distribution) ctx a ctx' :
  allocate_random_samples_array size d ctx = (Return a, ctx') ->
  generate_random_samples_array size d ctx
  = (Return (map (samples_at a) (int_range 0 size)), ctx').
Proof.
  intros E. unfold generate_random_samples_array.
  now rewrite (bind_Return _ _ _ _ _ E).
Qed.

Lemma allocate_samples_total size (d : Distribution) ctx :
  samples_ctor_what (_counter ctx) size (_seed ctx) d = None ->
  allocate_random_samples_array size d ctx
  = (Return (mk_random_samples_array (_counter ctx) size (_seed ctx) d),
     set_counter (to_size_t (_counter ctx + size)) ctx).
Proof. intros E. unfold allocate_random_samples_array. now rewrite E. Qed.

End Generate.

(** ** The Woodruff-Zhang constructor (C1, C6) *)

Section WZT_facts.
  Context `{HB : HashBase} `{LM : Libm}
          `{RGr : Randgen rademacher_distribution_t float}.

(** C1, as amended: with [p < 1] or [2 < p] the constructor raises the
    parameter-range error after the base class has been constructed: the
    context is then exactly as the base constructor left it, with the
    samples of the base drawn and nothing drawn for the signs.  (An
    exception of the base constructor propagates as it is.) *)
Theorem WZT_rejects_p_after_base (N S : Z) (p : float) (ctx : context_t) :
  ((p <? 1) || (2 <? p))%float = true ->
  WZT_data_t_ctor N S p ctx
  = match Base_ctor N S "WZT" ctx with
    | (Return _, ctx1) =>
        (Throw (sketch_exception "WZT parameter p has unsupported range"), ctx1)
    | (Throw e, ctx1) => (Throw e, ctx1)
    end.
Proof.
  intros Hp. unfold WZT_data_t_ctor, bind.
  destruct (Base_ctor N S "WZT" ctx) as [[b | e] ctx1]; [| reflexivity].
  now rewrite Hp.
Qed.

(** C6: with [p] in [[1, 2]], once the base class is constructed (with
    [N] coordinates) and the allocation of the [N] Rademacher samples that
    follows it returns, the constructor returns a descriptor whose
    magnitude at each coordinate [i] is [sign_i * pow(1 / e_i, 1 / p)],
    [e_i] being the magnitude the base constructor drew for [i] and
    [sign_i] sample [i] of that later allocation. *)
Theorem WZT_row_value_spec (N S : Z) (p : float) (ctx ctx1 : context_t)
    (b : hash_transform_data_t) :
  (p <? 1)%float = false -> (2 <? p)%float = false ->
  Base_ctor N S "WZT" ctx = (Return b, ctx1) ->
  0 <= base_N b < size_t_modulus ->
  length (row_value b) = Z.to_nat (base_N b) ->
  samples_ctor_what (_counter ctx1) (base_N b) (_seed ctx1) mk_rademacher = None ->
  exists (d : WZT_data_t) (pmvals : random_samples_array_t rademacher_distribution_t)
         (ctx2 : context_t),
    WZT_data_t_ctor N S p ctx = (Return d, ctx2)
    /\ allocate_random_samples_array (base_N b) mk_rademacher ctx1
       = (Return pmvals, ctx2)
    /\ _P d = p
    /\ length (row_value (Base d)) = Z.to_nat (base_N b)
    /\ forall i e, 0 <= i < base_N b ->
         row_value b !! Z.to_nat i = Some e ->
         row_value (Base d) !! Z.to_nat i
         = Some (samples_at pmvals i * pow (1 / e) (1 / p))%float.
Proof.
  intros Hp1 Hp2 Eb HN Hlen Hctor.
  pose proof (allocate_samples_total _ mk_rademacher ctx1 Hctor) as Ea.
  set (pm := mk_random_samples_array (_counter ctx1) (base_N b) (_seed ctx1)
               mk_rademacher) in *.
  set (ctx2 := set_counter (to_size_t (_counter ctx1 + base_N b)) ctx1) in *.
  destruct (populate_loop (map (samples_at pm) (int_range 0 (base_N b))) p
              (base_N b) (row_value b)) as (v' & Erun & Hlen' & Hget).
  { lia. }
  { rewrite length_map, int_range_length. f_equal. lia. }
  { exact Hlen. }
  exists (mk_WZT_data (set_row_value v' b) p), pm, ctx2.
  split; [| split; [exact Ea | split; [reflexivity | split]]].
  - unfold WZT_data_t_ctor. rewrite (bind_Return _ _ _ _ _ Eb).
    rewrite Hp1, Hp2. cbn [orb]. unfold _populate. cbn [Base _P].
    rewrite to_size_t_small by exact HN.
    rewrite (bind_Return _ _ _ _ _ (generate_Return _ _ _ _ _ Ea)).
    now rewrite Erun.
  - cbn [Base set_row_value row_value]. now rewrite Hlen', Hlen.
  - intros i e Hi Ee. cbn [Base set_row_value row_value].
    apply Hget; auto. now apply int_range_lookup.
Qed.

End WZT_facts.

Section WZT_examples.
Import Standin StandinLibm HashModel.

(** C1 at [N = 3], [S = 2], [p = 3]. *)
Lemma WZT_rejects_p_after_base_witness :
  WZT_data_t_ctor 3 2 3 (context_t_ctor 1 world)
  = match Base_ctor 3 2 "WZT" (context_t_ctor 1 world) with
    | (Return _, ctx1) =>
        (Throw (sketch_exception "WZT parameter p has unsupported range"), ctx1)
    | (Throw e, ctx1) => (Throw e, ctx1)
    end.
Proof.
  exact (WZT_rejects_p_after_base 3 2 3%float (context_t_ctor 1 world) eq_refl).
Defined.

(** C1 as stated fails: with [p = 0.5] and with [p = 3] the error is raised
    when the counter of a fresh context has already advanced to [6], the
    base descriptor over [N = 3] coordinates having drawn its 3 indices and 3
    magnitudes. *)
Lemma WZT_bad_p_counter_advanced :
  WZT_data_t_ctor 3 2 0.5 (context_t_ctor 1 world)
  = (Throw (sketch_exception "WZT parameter p has unsupported range"),
     set_counter 6 (context_t_ctor 1 world))
  /\ WZT_data_t_ctor 3 2 3 (context_t_ctor 1 world)
     = (Throw (sketch_exception "WZT parameter p has unsupported range"),
        set_counter 6 (context_t_ctor 1 world))
  /\ _counter (context_t_ctor 1 world) = 0.
Proof. repeat split; vm_compute; reflexivity. Qed.

(** C6 at [N = 3], [S = 2], [p = 2], where [pow(x, 1/2)] is the square root. *)
Lemma WZT_row_value_spec_witness :
  exists d pmvals ctx2,
    WZT_data_t_ctor 3 2 2 (context_t_ctor 1 world) = (Return d, ctx2)
    /\ allocate_random_samples_array 3 mk_rademacher
         (snd (Base_ctor 3 2 "WZT" (context_t_ctor 1 world)))
       = (Return pmvals, ctx2)
    /\ _P d = 2%float
    /\ length (row_value (Base d)) = 3%nat
    /\ forall i e, 0 <= i < 3 ->
         [0.5; 0.75; 1]%float !! Z.to_nat i = Some e ->
         row_value (Base d) !! Z.to_nat i
         = Some (samples_at pmvals i * pow (1 / e) (1 / 2))%float.
Proof.
  apply (WZT_row_value_spec 3 2 2%float (context_t_ctor 1 world)
           (snd (Base_ctor 3 2 "WZT" (context_t_ctor 1 world)))
           (mk_hash_transform_data 3 2 "WZT" [0; 1; 0] [0.5; 0.75; 1]%float)).
  - reflexivity.
  - reflexivity.
  - vm_compute. reflexivity.
  - unfold size_t_modulus. simpl. lia.
  - reflexivity.
  - reflexivity.
Defined.

End WZT_examples.

(** ** Replaying a context: the descriptor over the base descriptor of the
       model (C7) *)

Create HintDb stream.

Lemma same_stream_refl x : same_stream x x.
Proof. split; reflexivity. Qed.

Lemma stream_only_ret {A} (a : A) : stream_only (ret a).
Proof. intros x y Hxy. split; [reflexivity | exact Hxy]. Qed.

Lemma stream_only_throw {A} e : stream_only (@throw context_t A e).
Proof. intros x y Hxy. split; [reflexivity | exact Hxy]. Qed.

Lemma stream_only_bind {A B} (c : SE context_t A) (k : A -> SE context_t B) :
  stream_only c -> (forall a, stream_only (k a)) -> stream_only (bind c k).
Proof.
  intros Hc Hk x y Hxy. unfold bind.
  destruct (Hc x y Hxy) as [Hfst Hsnd].
  destruct (c x) as [[a | e] x1], (c y) as [[a' | e'] y1];
    cbn [fst snd] in *; try discriminate.
  - inversion Hfst; subst a'. now apply Hk.
  - inversion Hfst; subst e'. auto.
Qed.

Lemma stream_only_pure {A} (r : outcome A) : stream_only (fun ctx => (r, ctx)).
Proof. intros x y Hxy. split; [reflexivity | exact Hxy]. Qed.

Lemma stream_only_allocate {Distribution ValueType}
    `{Randgen Distribution ValueType} size (d : Distribution) :
  stream_only (allocate_random_samples_array size d).
Proof.
  intros x y [Hs Hc]. unfold allocate_random_samples_array.
  rewrite <- Hs, <- Hc.
  destruct (samples_ctor_what _ _ _ _); cbn [fst snd]; split; auto;
    split; cbn [_seed _counter set_counter]; auto.
Qed.

Lemma stream_only_generate {Distribution ValueType}
    `{Randgen Distribution ValueType} size (d : Distribution) :
  stream_only (generate_random_samples_array size d).
Proof.
  unfold generate_random_samples_array. apply stream_only_bind.
  - apply stream_only_allocate.
  - intros a. apply stream_only_ret.
Qed.

#[local] Hint Resolve stream_only_ret stream_only_throw stream_only_pure
  stream_only_allocate stream_only_generate : stream.

Lemma stream_only_ptree_get_double (sk : ptree) path :
  stream_only (ptree_get_double sk path).
Proof. unfold ptree_get_double. destruct (sk !! path) as [[]|]; auto with stream. Qed.

Lemma stream_only_ptree_get_int (sk : ptree) path :
  stream_only (ptree_get_int sk path).
Proof. unfold ptree_get_int. destruct (sk !! path) as [[]|]; auto with stream. Qed.

Lemma stream_only_ptree_get_string (sk : ptree) path :
  stream_only (ptree_get_string sk path).
Proof. unfold ptree_get_string. destruct (sk !! path) as [[]|]; auto with stream. Qed.

#[local] Hint Resolve stream_only_ptree_get_double stream_only_ptree_get_int
  stream_only_ptree_get_string : stream.

Ltac stream_steps :=
  repeat first
    [ solve [auto with stream]
    | lazymatch goal with |- forall _, _ => intro end
    | apply stream_only_bind ].

Section WZT_roundtrip.
  Context `{RGi : Randgen uniform_int_distribution Z}
          `{RGe : Randgen exponential_distribution float}
          `{RGr : Randgen rademacher_distribution_t float}
          `{LM : Libm}.
  Import HashModel.

Lemma stream_only_hash_populate N S name : stream_only (populate N S name).
Proof. unfold populate. stream_steps. Qed.

Lemma stream_only_WZT_populate this : stream_only (_populate this).
Proof.
  unfold _populate. apply stream_only_bind; [auto with stream |].
  intros pmvals.
  destruct (for_loop 0 (base_N (Base this)) (rescale pmvals (_P this))
              (row_value (Base this))) as [[[] | e] v];
    apply stream_only_pure.
Qed.

Lemma stream_only_WZT_ctor_ptree (sketch : ptree) :
  stream_only (WZT_data_t_ctor_ptree sketch).
Proof.
  unfold WZT_data_t_ctor_ptree. cbn [Base_ctor_ptree hash_base].
  unfold from_ptree.
  pose proof stream_only_hash_populate. pose proof stream_only_WZT_populate.
  stream_steps.
Qed.

(** What [operator<<] leaves in the tree. *)
Lemma WZT_write_lookup (d : WZT_data_t) (sk : ptree) :
  WZT_write d sk !! "sketch.p" = Some (pt_double (_P d))
  /\ WZT_write d sk !! "sketch.S" = Some (pt_int (base_S (Base d)))
  /\ WZT_write d sk !! "sketch.N" = Some (pt_int (base_N (Base d)))
  /\ WZT_write d sk !! "sketch.type" = Some (pt_string (base_name (Base d))).
Proof.
  unfold WZT_write, ptree_put. cbn [transform_data_write hash_base].
  unfold write, ptree_put.
  repeat split;
    repeat first [ rewrite lookup_insert_eq; reflexivity
                 | rewrite lookup_insert_ne by discriminate ].
Qed.

(** The base descriptor of the model draws [2 * N] samples. *)
Lemma hash_populate_counter N S name ctx :
  counter_in_range ctx -> 0 <= N -> _counter ctx + 2 * N < size_t_modulus ->
  (forall base size seed d,
     samples_ctor_what (Randgen := RGi) base size seed d = None) ->
  (forall base size seed d,
     samples_ctor_what (Randgen := RGe) base size seed d = None) ->
  exists b,
    populate N S name ctx = (Return b, set_counter (_counter ctx + 2 * N) ctx)
    /\ base_N b = N
    /\ length (row_value b) = Z.to_nat N.
Proof.
  intros [Hc0 Hc1] HN Hsum Hi He.
  pose proof (allocate_samples_total (to_size_t N) (mk_uniform_int 0 (S - 1)) ctx
                (Hi _ _ _ _)) as E1.
  set (ctx1 := set_counter (to_size_t (_counter ctx + to_size_t N)) ctx) in E1.
  pose proof (allocate_samples_total (to_size_t N) mk_exponential ctx1
                (He _ _ _ _)) as E2.
  eexists. split; [| split].
  - unfold populate.
    rewrite (bind_Return _ _ _ _ _ (generate_Return _ _ _ _ _ E1)).
    rewrite (bind_Return _ _ _ _ _ (generate_Return _ _ _ _ _ E2)).
    unfold ret. f_equal. unfold ctx1, set_counter. cbn [_counter _seed context_comm
      context_rank context_size].
    rewrite (to_size_t_small N) by lia.
    rewrite (to_size_t_small (_counter ctx + N)) by lia.
    rewrite (to_size_t_small (_counter ctx + N + N)) by lia.
    f_equal. lia.
  - reflexivity.
  - cbn [row_value]. rewrite length_map, int_range_length.
    rewrite (to_size_t_small N) by lia. f_equal. lia.
Qed.

(** With the base descriptor of the model, the error for [p] out of range
    is raised when the counter has advanced by [2 * N]. *)
Lemma WZT_bad_p_counter N S p ctx :
  ((p <? 1) || (2 <? p))%float = true ->
  counter_in_range ctx -> 0 <= N -> _counter ctx + 2 * N < size_t_modulus ->
  (forall base size seed d,
     samples_ctor_what (Randgen := RGi) base size seed d = None) ->
  (forall base size seed d,
     samples_ctor_what (Randgen := RGe) base size seed d = None) ->
  WZT_data_t_ctor N S p ctx
  = (Throw (sketch_exception "WZT parameter p has unsupported range"),
     set_counter (_counter ctx + 2 * N) ctx).
Proof.
  intros Hp Hrange HN Hsum Hi He.
  destruct (hash_populate_counter N S "WZT" ctx Hrange HN Hsum Hi He)
    as (b & Eb & _).
  unfold WZT_data_t_ctor. cbn [Base_ctor hash_base].
  rewrite (bind_Return _ _ _ _ _ Eb). now rewrite Hp.
Qed.

(** The descriptor a successful construction returns. *)
Lemma WZT_ctor_Return N S p ctx d ctx1 :
  WZT_data_t_ctor N S p ctx = (Return d, ctx1) ->
  exists b ctx0,
    populate N S "WZT" ctx = (Return b, ctx0)
    /\ _populate (mk_WZT_data b p) ctx0 = (Return d, ctx1)
    /\ base_N b = N /\ base_S b = S /\ base_name b = "WZT".
Proof.
  unfold WZT_data_t_ctor. intros E.
  apply bind_inv_Return in E as (b & ctx0 & Eb & E).
  cbn [Base_ctor hash_base] in Eb.
  destruct ((p <? 1) || (2 <? p))%float; [discriminate |].
  exists b, ctx0. split; [exact Eb | split; [exact E |]].
  unfold populate in Eb.
  apply bind_inv_Return in Eb as (idx & c1 & _ & Eb).
  apply bind_inv_Return in Eb as (val & c2 & _ & Eb).
  inversion Eb. auto.
Qed.

Lemma WZT_populate_Return this ctx d ctx1 :
  _populate this ctx = (Return d, ctx1) ->
  _P d = _P this /\ base_N (Base d) = base_N (Base this)
  /\ base_S (Base d) = base_S (Base this)
  /\ base_name (Base d) = base_name (Base this).
Proof.
  unfold _populate. intros E.
  apply bind_inv_Return in E as (pm & c1 & _ & E).
  destruct (for_loop _ _ _ _) as [[[] | e] v]; inversion E. auto.
Qed.

(** C7: a descriptor written with [operator<<] into any tree and read
    back with a context of the same seed at the counter the original was
    constructed from is the original descriptor: the same [p], the same
    indices and the same magnitudes; and the reading leaves the counter
    where the original construction left it. *)
Theorem WZT_write_read_roundtrip N S p (ctx ctx1 ctx' : context_t)
    (d : WZT_data_t) (sk : ptree) :
  WZT_data_t_ctor N S p ctx = (Return d, ctx1) ->
  _seed ctx' = _seed ctx ->
  _counter ctx' = _counter ctx ->
  exists ctx1',
    WZT_data_t_ctor_ptree (WZT_write d sk) ctx' = (Return d, ctx1')
    /\ _counter ctx1' = _counter ctx1
    /\ _seed ctx1' = _seed ctx1.
Proof.
  intros E Hseed Hctr.
  destruct (WZT_ctor_Return _ _ _ _ _ _ E) as (b & ctx0 & Eb & Ep & HN & HS & Hname).
  destruct (WZT_populate_Return _ _ _ _ Ep) as (HP & HN' & HS' & Hname').
  cbn [Base _P] in *.
  destruct (WZT_write_lookup d sk) as (Lp & LS & LN & Ltype).
  assert (WZT_data_t_ctor_ptree (WZT_write d sk) ctx = (Return d, ctx1)) as Eread.
  { unfold WZT_data_t_ctor_ptree. cbn [Base_ctor_ptree hash_base].
    unfold from_ptree, ptree_get_string, ptree_get_int, ptree_get_double.
    rewrite Ltype, LN, LS, Lp, Hname', HN', HS', Hname, HN, HS, HP.
    unfold bind, ret. rewrite Eb. exact Ep. }
  destruct (stream_only_WZT_ctor_ptree (WZT_write d sk) ctx ctx') as [Hfst [Hs Hc]].
  { split; auto. }
  rewrite Eread in Hfst, Hs, Hc. cbn [fst snd] in *.
  destruct (WZT_data_t_ctor_ptree (WZT_write d sk) ctx') as [r ctx1'] eqn:E'.
  cbn [fst snd] in *. subst r. exists ctx1'. auto.
Qed.

End WZT_roundtrip.

Section WZT_roundtrip_example.
Import Standin StandinLibm HashModel.

(** C7 at [N = 3], [S = 2], [p = 1]: written into an empty tree on rank 0,
    read back on rank 1 from a fresh context of the same seed. *)
Lemma WZT_write_read_roundtrip_witness :
  exists ctx1',
    WZT_data_t_ctor_ptree
      (WZT_write
         (mk_WZT_data
            (mk_hash_transform_data 3 2 "WZT" [0; 1; 0]
               [2; -0x1.5555555555555p+0; 1]%float) 1) ∅)
      (context_t_ctor 1 world1)
    = (Return
         (mk_WZT_data
            (mk_hash_transform_data 3 2 "WZT" [0; 1; 0]
               [2; -0x1.5555555555555p+0; 1]%float) 1), ctx1')
    /\ _counter ctx1' = _counter (set_counter 9 (context_t_ctor 1 world))
    /\ _seed ctx1' = _seed (set_counter 9 (context_t_ctor 1 world)).
Proof.
  apply (WZT_write_read_roundtrip 3 2 1%float (context_t_ctor 1 world)).
  - vm_compute. reflexivity.
  - reflexivity.
  - reflexivity.
Defined.

End WZT_roundtrip_example.

(** ** The least-squares entry points (C4, C9) *)

Lemma to_int_small z : INT_MIN <= z <= INT_MAX -> to_int z = z.
Proof.
  unfold INT_MIN, INT_MAX, to_int. intros Hz. rewrite Z.mod_small; lia.
Qed.

Lemma Orientation_eqb_eq a b : Orientation_eqb a b = true <-> a = b.
Proof. destruct a, b; cbn; split; congruence. Qed.

Section LeastSquares_facts.
  Context {AT BT XT : Type} `{MT : MatrixType AT}
          `{SS : SketchedSolver AT BT XT} `{AS : AcceleratedSolver AT BT XT}.

(** C4: with an orientation other than [NORMAL] both entry points throw
    their orientation error at once, whatever [A] and [B] are, and leave
    [X] and the context, counter included, as they were; with [NORMAL] the
    test throws nothing, and each entry point is its solver, constructed
    and run. *)
Theorem orientation_checked_first (orientation : Orientation) (A : AT) (B : BT)
    (sketch_size : Z) (X : XT) (context : context_t) :
  (orientation <> NORMAL ->
     ApproximateLeastSquares orientation A B sketch_size (X, context)
     = (Throw (nla_exception
          "Only NORMAL orientation is supported for ApproximateLeastSquares"),
        (X, context))
     /\ FastLeastSquares orientation A B (X, context)
        = (Throw (sketch_exception
             "Only NORMAL orientation is supported for FastLeastSquares"),
           (X, context)))
  /\ (orientation = NORMAL ->
        ApproximateLeastSquares orientation A B sketch_size (X, context)
        = (solver <~ on_context
                       (sketched_solver_ctor
                          (mk_problem (base_Height A) (base_Width A) A)
                          (if sketch_size =? -1 then to_int (4 * base_Width A)
                           else sketch_size)) ;;
           sketched_solve solver B) (X, context)
        /\ FastLeastSquares orientation A B (X, context)
           = (solver <~ on_context
                          (accelerated_solver_ctor
                             (mk_problem (base_Height A) (base_Width A) A)) ;;
              accelerated_solve solver B) (X, context)).
Proof.
  unfold ApproximateLeastSquares, FastLeastSquares. split.
  - intros Hne.
    assert (Orientation_eqb orientation NORMAL = false) as ->.
    { destruct (Orientation_eqb orientation NORMAL) eqn:E; [| reflexivity].
      apply Orientation_eqb_eq in E. contradiction. }
    split; reflexivity.
  - intros ->. split; reflexivity.
Qed.

(** C9, as amended: called with the default sketch size on a matrix for
    which [4 * Width(A)] is an [int], [ApproximateLeastSquares] constructs
    its solver with [4 * Width(A)]; called with another value, it constructs
    it with that value. *)
Theorem sketch_size_default (A : AT) (B : BT) (X : XT) (context : context_t) :
  (INT_MIN <= 4 * base_Width A <= INT_MAX ->
   ApproximateLeastSquares NORMAL A B default_sketch_size (X, context)
   = (solver <~ on_context
                  (sketched_solver_ctor
                     (mk_problem (base_Height A) (base_Width A) A)
                     (4 * base_Width A)) ;;
      sketched_solve solver B) (X, context))
  /\ forall sketch_size, sketch_size <> default_sketch_size ->
       ApproximateLeastSquares NORMAL A B sketch_size (X, context)
       = (solver <~ on_context
                      (sketched_solver_ctor
                         (mk_problem (base_Height A) (base_Width A) A)
                         sketch_size) ;;
          sketched_solve solver B) (X, context).
Proof.
  unfold ApproximateLeastSquares, default_sketch_size. cbn [Orientation_eqb negb].
  split.
  - intros Hfit. cbn [Z.eqb Pos.eqb]. now rewrite (to_int_small _ Hfit).
  - intros s Hs. destruct (Z.eqb_spec s (-1)) as [E | _]; [contradiction |].
    reflexivity.
Qed.

End LeastSquares_facts.

Section LeastSquares_examples.
Import Standin StandinSolver.

(** C4 with the adjoint orientation, on a 6 x 2 system. *)
Lemma orientation_checked_first_witness :
  ApproximateLeastSquares ADJOINT (ones 6 2) (ones 6 1) (-1)
    (zeros 2 1, context_t_ctor 5 world)
  = (Throw (nla_exception
       "Only NORMAL orientation is supported for ApproximateLeastSquares"),
     (zeros 2 1, context_t_ctor 5 world))
  /\ FastLeastSquares ADJOINT (ones 6 2) (ones 6 1)
       (zeros 2 1, context_t_ctor 5 world)
     = (Throw (sketch_exception
          "Only NORMAL orientation is supported for FastLeastSquares"),
        (zeros 2 1, context_t_ctor 5 world)).
Proof.
  apply (proj1 (orientation_checked_first ADJOINT (ones 6 2) (ones 6 1) (-1)
                  (zeros 2 1) (context_t_ctor 5 world))).
  discriminate.
Defined.

(** C9 on a 6 x 2 system: by default, and with a sketch size of 400. *)
Lemma sketch_size_default_witness :
  ApproximateLeastSquares NORMAL (ones 6 2) (ones 6 1) default_sketch_size
    (zeros 2 1, context_t_ctor 5 world)
  = (solver <~ on_context
                 (sketched_solver_ctor
                    (mk_problem (base_Height (ones 6 2)) (base_Width (ones 6 2))
                       (ones 6 2)) (4 * base_Width (ones 6 2))) ;;
     sketched_solve solver (ones 6 1)) (zeros 2 1, context_t_ctor 5 world)
  /\ ApproximateLeastSquares NORMAL (ones 6 2) (ones 6 1) 400
       (zeros 2 1, context_t_ctor 5 world)
     = (solver <~ on_context
                    (sketched_solver_ctor
                       (mk_problem (base_Height (ones 6 2)) (base_Width (ones 6 2))
                          (ones 6 2)) 400) ;;
        sketched_solve solver (ones 6 1)) (zeros 2 1, context_t_ctor 5 world).
Proof.
  split.
  - apply (proj1 (sketch_size_default (ones 6 2) (ones 6 1) (zeros 2 1)
                    (context_t_ctor 5 world))).
    unfold INT_MIN, INT_MAX. cbn. lia.
  - apply (proj2 (sketch_size_default (ones 6 2) (ones 6 1) (zeros 2 1)
                    (context_t_ctor 5 world)) 400).
    discriminate.
Defined.

(** C9 as stated fails where [4 * Width(A)] is not an [int]: for a matrix
    of 600000000 columns the solver is constructed with the sketch size
    [-1894967296], not with [2400000000]. *)
Lemma default_sketch_size_overflows :
  ApproximateLeastSquares NORMAL (ones 1 600000000) (ones 1 1) default_sketch_size
    (zeros 600000000 1, context_t_ctor 5 world)
  = (solver <~ on_context
                 (sketched_solver_ctor
                    (mk_problem 1 600000000 (ones 1 600000000)) (-1894967296)) ;;
     sketched_solve solver (ones 1 1)) (zeros 600000000 1, context_t_ctor 5 world)
  /\ (4 * base_Width (ones 1 600000000) =? -1894967296) = false
  /\ 4 * base_Width (ones 1 600000000) = 2400000000.
Proof. repeat split; reflexivity. Qed.

End LeastSquares_examples.

(** ** RFT_Elemental.hpp: the loops over the projected matrix *)

Section RFT_loops.
  Context {Data : Type} `{LM : Libm}.
  Variable d : RFT_data_t Data.

(** [pick i j] is the index of the shift used at entry [(i, j)]: [i] when
    applying columnwise, [j] when applying rowwise. *)
Variable pick : Z -> Z -> Z.

Lemma vector_at_shift {St} (k : Z) (s : St) :
  0 <= k < Z.of_nat (length (_shifts d)) ->
  vector_at (_shifts d) k s = (Return (shift_of d k), s).
Proof.
  intros Hk. unfold vector_at, shift_of.
  destruct (Z.leb_spec 0 k) as [_ | ?]; [| lia].
  destruct (lookup_lt_is_Some_2 (_shifts d) (Z.to_nat k) ltac:(lia)) as [x ->].
  reflexivity.
Qed.

Lemma transform_entry_Return (i j : Z) (M : Matrix) :
  in_matrix M i j = true -> shift_available d (pick i j) ->
  exists M',
    transform_entry d i j (pick i j) M = (Return tt, M')
    /\ Height M' = Height M /\ Width M' = Width M
    /\ forall i' j',
        buffer M' i' j'
        = if (i' =? i) && (j' =? j) then feature d (pick i j) (buffer M i j)
          else buffer M i' j'.
Proof.
  intros Hin Hk. eexists. split; [| split; [| split]].
  - unfold transform_entry, bind, Matrix_Get, Matrix_Set. rewrite Hin.
    rewrite (vector_at_shift _ _ Hk). rewrite Hin. reflexivity.
  - reflexivity.
  - reflexivity.
  - intros i' j'. reflexivity.
Qed.

(** The inner loop on column [j], over the rows [a .. a+n-1]. *)
Lemma rows_loop (j : Z) (n a : nat) (M : Matrix) :
  0 <= j < Width M ->
  Z.of_nat (a + n) <= Height M ->
  (forall i, Z.of_nat a <= i < Z.of_nat (a + n) -> shift_available d (pick i j)) ->
  exists M',
    for_each (fun i => transform_entry d i j (pick i j))
             (map Z.of_nat (seq a n)) M = (Return tt, M')
    /\ Height M' = Height M /\ Width M' = Width M
    /\ forall i' j',
        buffer M' i' j'
        = if (j' =? j) && (Z.of_nat a <=? i') && (i' <? Z.of_nat (a + n))
          then feature d (pick i' j') (buffer M i' j')
          else buffer M i' j'.
Proof.
  revert a M. induction n as [| n IH]; intros a M Hj Hrows Hsh.
  - exists M. cbn [seq map for_each]. repeat split.
    intros i' j'.
    destruct (j' =? j); cbn [andb]; auto.
    destruct (Z.leb_spec (Z.of_nat a) i'); cbn [andb]; auto.
    destruct (Z.ltb_spec i' (Z.of_nat (a + 0))); auto. lia.
  - destruct (transform_entry_Return (Z.of_nat a) j M) as (M1 & E1 & H1 & W1 & B1).
    { unfold in_matrix. rewrite !andb_true_iff, !Z.leb_le, !Z.ltb_lt. lia. }
    { apply Hsh. lia. }
    destruct (IH (S a) M1) as (M' & E' & H' & W' & B').
    { lia. }
    { rewrite H1. lia. }
    { intros i Hi. apply Hsh. lia. }
    exists M'. split; [| split; [| split]].
    + cbn [seq map].
      rewrite (for_each_cons (fun i => transform_entry d i j (pick i j))
                 _ _ _ _ E1).
      exact E'.
    + congruence.
    + congruence.
    + intros i' j'. rewrite B', !B1.
      destruct (Z.eqb_spec j' j) as [-> | Hne]; cbn [andb].
      * destruct (Z.eqb_spec i' (Z.of_nat a)) as [-> | Hne]; cbn [andb].
        -- destruct (Z.leb_spec (Z.of_nat (S a)) (Z.of_nat a)); [lia |].
           destruct (Z.leb_spec (Z.of_nat a) (Z.of_nat a)); [| lia].
           destruct (Z.ltb_spec (Z.of_nat a) (Z.of_nat (a + S n))); [| lia].
           reflexivity.
        -- destruct (Z.leb_spec (Z.of_nat (S a)) i');
             destruct (Z.leb_spec (Z.of_nat a) i'); try lia; cbn [andb]; auto.
           destruct (Z.ltb_spec i' (Z.of_nat (S a + n)));
             destruct (Z.ltb_spec i' (Z.of_nat (a + S n))); try lia; auto.
      * now rewrite !andb_false_r.
Qed.

(** The two loops: columns [b .. b+m-1], and in each the rows
    [0 .. nrows-1]. *)
Lemma columns_loop (nrows : Z) (m b : nat) (M : Matrix) :
  0 <= nrows <= Height M ->
  Z.of_nat (b + m) <= Width M ->
  (forall i j, 0 <= i < nrows -> Z.of_nat b <= j < Z.of_nat (b + m) ->
               shift_available d (pick i j)) ->
  exists M',
    for_each (fun j => for_loop 0 nrows (fun i => transform_entry d i j (pick i j)))
             (map Z.of_nat (seq b m)) M = (Return tt, M')
    /\ Height M' = Height M /\ Width M' = Width M
    /\ forall i' j',
        buffer M' i' j'
        = if (Z.of_nat b <=? j') && (j' <? Z.of_nat (b + m))
             && (0 <=? i') && (i' <? nrows)
          then feature d (pick i' j') (buffer M i' j')
          else buffer M i' j'.
Proof.
  revert b M. induction m as [| m IH]; intros b M Hrows Hcols Hsh.
  - exists M. cbn [seq map for_each]. repeat split.
    intros i' j'.
    destruct (Z.leb_spec (Z.of_nat b) j'); cbn [andb]; auto.
    destruct (Z.ltb_spec j' (Z.of_nat (b + 0))); cbn [andb]; auto. lia.
  - destruct (rows_loop (Z.of_nat b) (Z.to_nat nrows) 0 M)
      as (M1 & E1 & H1 & W1 & B1).
    { lia. }
    { lia. }
    { intros i Hi. apply Hsh; lia. }
    destruct (IH (S b) M1) as (M' & E' & H' & W' & B').
    { rewrite H1. lia. }
    { rewrite W1. lia. }
    { intros i j Hi Hj. apply Hsh; lia. }
    exists M'. split; [| split; [| split]].
    + cbn [seq map].
      rewrite (for_each_cons
                 (fun j => for_loop 0 nrows
                             (fun i => transform_entry d i j (pick i j)))
                 (Z.of_nat b) _ M M1).
      * exact E'.
      * unfold for_loop. rewrite int_range_0. exact E1.
    + congruence.
    + congruence.
    + intros i' j'. rewrite B', !B1.
      replace (Z.of_nat (0 + Z.to_nat nrows)) with nrows by lia.
      change (Z.of_nat 0) with 0.
      destruct (Z.leb_spec 0 i'); cbn [andb]; [| now rewrite !andb_false_r].
      destruct (Z.ltb_spec i' nrows); cbn [andb]; [| now rewrite !andb_false_r].
      rewrite !andb_true_r.
      destruct (Z.eqb_spec j' (Z.of_nat b)) as [-> | Hne].
      * destruct (Z.leb_spec (Z.of_nat (S b)) (Z.of_nat b)); [lia |].
        destruct (Z.leb_spec (Z.of_nat b) (Z.of_nat b)); [| lia].
        destruct (Z.ltb_spec (Z.of_nat b) (Z.of_nat (b + S m))); [| lia].
        reflexivity.
      * destruct (Z.leb_spec (Z.of_nat (S b)) j');
          destruct (Z.leb_spec (Z.of_nat b) j'); try lia; cbn [andb]; auto.
        destruct (Z.ltb_spec j' (Z.of_nat (S b + m)));
          destruct (Z.ltb_spec j' (Z.of_nat (b + S m))); try lia; auto.
Qed.

(** The loops as [apply_impl] runs them. *)
Lemma entries_loop (ncols nrows : Z) (M : Matrix) :
  0 <= nrows <= Height M -> 0 <= ncols <= Width M ->
  (forall i j, 0 <= i < nrows -> 0 <= j < ncols -> shift_available d (pick i j)) ->
  exists M',
    for_loop 0 ncols (fun j =>
      for_loop 0 nrows (fun i => transform_entry d i j (pick i j))) M
    = (Return tt, M')
    /\ Height M' = Height M /\ Width M' = Width M
    /\ forall i j,
        buffer M' i j
        = if (0 <=? j) && (j <? ncols) && (0 <=? i) && (i <? nrows)
          then feature d (pick i j) (buffer M i j)
          else buffer M i j.
Proof.
  intros Hrows Hcols Hsh. unfold for_loop at 1. rewrite int_range_0.
  destruct (columns_loop nrows (Z.to_nat ncols) 0 M) as (M' & E & H' & W' & B').
  - exact Hrows.
  - lia.
  - intros i j Hi Hj. apply Hsh; lia.
  - exists M'. repeat split; auto. intros i j. rewrite B'.
    replace (Z.of_nat (0 + Z.to_nat ncols)) with ncols by lia.
    reflexivity.
Qed.

End RFT_loops.

(** ** Applying a random feature transform to local matrices (C5) *)

Section RFT_local_facts.
  Context {Data : Type} `{LM : Libm}
          {InputType : Type} `{MT : MatrixType InputType}
          `{DT : DenseTransform Data InputType}.

Lemma shifts_sized_nonneg (d : RFT_data_t Data) : shifts_sized d -> 0 <= _S d.
Proof. unfold shifts_sized. lia. Qed.

(** What [apply_impl] leaves after a columnwise projection [P]. *)
Lemma apply_impl_columnwise_Return (d : RFT_data_t Data) (A : InputType)
    (sketch_of_A P : Matrix) :
  dense_apply (_underlying_data d) A columnwise_tag sketch_of_A = (Return tt, P) ->
  projected columnwise_tag (_S d) (base_Height A) (base_Width A) P ->
  shifts_sized d ->
  exists R,
    apply_impl_columnwise d A sketch_of_A = (Return tt, R)
    /\ Height R = Height P /\ Width R = Width P
    /\ forall i j,
        buffer R i j
        = if in_matrix P i j then feature d i (buffer P i j) else buffer P i j.
Proof.
  intros Eproj (HH & HW & Hpos) Hshifts.
  pose proof (shifts_sized_nonneg d Hshifts) as HS.
  unfold shifts_sized in Hshifts.
  destruct (entries_loop d (shift_index columnwise_tag) (base_Width A) (_S d) P)
    as (R & E & HR & WR & BR).
  { lia. }
  { lia. }
  { intros i j Hi Hj. unfold shift_available, shift_index. lia. }
  exists R. split; [| split; [exact HR | split; [exact WR |]]].
  - unfold apply_impl_columnwise. rewrite (bind_Return _ _ _ _ _ Eproj).
    exact E.
  - intros i j. rewrite BR. unfold in_matrix, shift_index. rewrite HH, HW.
    destruct (0 <=? i), (i <? _S d), (0 <=? j), (j <? base_Width A); reflexivity.
Qed.

(** What [apply_impl] leaves after a rowwise projection [P]. *)
Lemma apply_impl_rowwise_Return (d : RFT_data_t Data) (A : InputType)
    (sketch_of_A P : Matrix) :
  dense_apply (_underlying_data d) A rowwise_tag sketch_of_A = (Return tt, P) ->
  projected rowwise_tag (_S d) (base_Height A) (base_Width A) P ->
  shifts_sized d ->
  exists R,
    apply_impl_rowwise d A sketch_of_A = (Return tt, R)
    /\ Height R = Height P /\ Width R = Width P
    /\ forall i j,
        buffer R i j
        = if in_matrix P i j then feature d j (buffer P i j) else buffer P i j.
Proof.
  intros Eproj (HH & HW & Hpos) Hshifts.
  pose proof (shifts_sized_nonneg d Hshifts) as HS.
  unfold shifts_sized in Hshifts.
  destruct (entries_loop d (shift_index rowwise_tag) (_S d) (base_Height A) P)
    as (R & E & HR & WR & BR).
  { lia. }
  { lia. }
  { intros i j Hi Hj. unfold shift_available, shift_index. lia. }
  exists R. split; [| split; [exact HR | split; [exact WR |]]].
  - unfold apply_impl_rowwise. rewrite (bind_Return _ _ _ _ _ Eproj).
    exact E.
  - intros i j. rewrite BR. unfold in_matrix, shift_index. rewrite HH, HW.
    destruct (0 <=? i), (i <? base_Height A), (0 <=? j), (j <? _S d); reflexivity.
Qed.

(** C5: when the underlying dense transform leaves the projection [P] of
    [A] in [sketch_of_A], [apply] returns with [sketch_of_A] of the same
    dimensions in which every entry [v] of [P] has been replaced, once,
    by [_scale * cos(v * _val_scale + _shifts[k])], [k] being the row of
    the entry for columnwise application and its column for rowwise
    application; the loops work on [sketch_of_A] itself. *)
Theorem RFT_apply_spec (d : RFT_data_t Data) (A : InputType) (tag : Dimension)
    (sketch_of_A P : Matrix) :
  dense_apply (_underlying_data d) A tag sketch_of_A = (Return tt, P) ->
  projected tag (_S d) (base_Height A) (base_Width A) P ->
  shifts_sized d ->
  exists R,
    RFT_apply d A tag sketch_of_A = (Return tt, R)
    /\ Height R = Height P /\ Width R = Width P
    /\ forall i j,
        buffer R i j
        = if in_matrix P i j
          then feature d (shift_index tag i j) (buffer P i j)
          else buffer P i j.
Proof.
  intros Eproj Hdims Hshifts. unfold RFT_apply, try_catch.
  destruct tag; cbn [apply_impl shift_index].
  - destruct (apply_impl_columnwise_Return d A sketch_of_A P Eproj Hdims Hshifts)
      as (R & E & HR & WR & BR).
    exists R. rewrite E. auto.
  - destruct (apply_impl_rowwise_Return d A sketch_of_A P Eproj Hdims Hshifts)
      as (R & E & HR & WR & BR).
    exists R. rewrite E. auto.
Qed.

End RFT_local_facts.

Section RFT_local_examples.
Import StandinLibm StandinDense.

(** C5 on the 2 x 1 input, columnwise. *)
Lemma RFT_apply_spec_witness :
  exists R,
    RFT_apply rft2 A21 columnwise_tag (Zeros 2 1) = (Return tt, R)
    /\ Height R = 2 /\ Width R = 1
    /\ forall i j,
        buffer R i j
        = if in_matrix (project identity2 A21 columnwise_tag) i j
          then feature rft2 (shift_index columnwise_tag i j)
                 (buffer (project identity2 A21 columnwise_tag) i j)
          else buffer (project identity2 A21 columnwise_tag) i j.
Proof.
  apply (RFT_apply_spec rft2 A21 columnwise_tag (Zeros 2 1)
           (project identity2 A21 columnwise_tag)).
  - reflexivity.
  - cbn. lia.
  - reflexivity.
Defined.

End RFT_local_examples.

(** ** Local and distributed application of a random feature transform (C8) *)

Lemma Length_nonneg n shift stride : 0 < stride -> 0 <= Length n shift stride.
Proof.
  intros Hs. unfold Length. destruct (Z.ltb_spec shift n); [| lia].
  pose proof (Z.div_pos (n - shift - 1) stride ltac:(lia) Hs). lia.
Qed.

(** Row [i] is one of the local rows of the process that owns it. *)
Lemma Length_owner n p i :
  0 < p -> 0 <= i < n -> 0 <= i / p < Length n (i mod p) p.
Proof.
  intros Hp Hi. pose proof (Z.mod_pos_bound i p Hp) as Hm.
  pose proof (Z.div_mod i p ltac:(lia)) as Hdm.
  pose proof (Z.mod_le i p ltac:(lia) Hp) as Hle.
  unfold Length. destruct (Z.ltb_spec (i mod p) n); [| lia].
  split; [apply Z.div_pos; lia |].
  assert (i / p <= (n - i mod p - 1) / p); [| lia].
  apply Z.div_le_lower_bound; lia.
Qed.

Section RFT_dist_facts.
  Context {Data : Type} `{LM : Libm}
          `{DT : DenseTransform Data Matrix} `{DDT : DistDenseTransform Data}.

(** X12: rowwise, the distributed specialization agrees with the local one:
    when the two underlying dense transforms leave the same projection [P],
    each process leaves in its rows of the distributed result the entries
    the local specialization computes. *)
Lemma RFT_rowwise_dist_agrees (ColDist : Distribution_tag)
    (d : RFT_data_t Data) (A : DistMatrix) (sketch_of_A : Matrix)
    (sketch_of_A_dist : DistMatrix) (P : Matrix) (rank : Z) :
  ColDist = VC \/ ColDist = VR ->
  dense_apply (_underlying_data d) (global A) rowwise_tag sketch_of_A
  = (Return tt, P) ->
  dist_dense_apply (_underlying_data d) A rowwise_tag sketch_of_A_dist
  = (Return tt, mk_DistMatrix (Grid_size A) P) ->
  projected rowwise_tag (_S d) (base_Height A) (base_Width A) P ->
  shifts_sized d ->
  0 <= rank < Grid_size A ->
  exists R D,
    RFT_apply d (global A) rowwise_tag sketch_of_A = (Return tt, R)
    /\ RFT_apply_dist ColDist d A rowwise_tag rank sketch_of_A_dist = (Return tt, D)
    /\ forall i j, 0 <= i < Height P -> i mod Grid_size A = rank ->
         buffer (global D) i j = buffer R i j.
Proof.
  intros HCol Eloc Edist Hdims Hshifts Hrank.
  destruct (apply_impl_rowwise_Return (MT := Matrix_MatrixType) d (global A)
              sketch_of_A P Eloc Hdims Hshifts)
    as (R & ER & _ & _ & BR).
  assert (RFT_apply d (global A) rowwise_tag sketch_of_A = (Return tt, R)) as ER'.
  { unfold RFT_apply, try_catch. cbn [apply_impl]. now rewrite ER. }
  clear ER. rename ER' into ER.
  pose proof (shifts_sized_nonneg d Hshifts) as HS.
  cbn [projected] in Hdims. destruct Hdims as (HH & HW & Hpos).
  set (D1 := mk_DistMatrix (Grid_size A) P) in *.
  set (Al := LocalMatrix D1 rank).
  destruct (entries_loop d (shift_index rowwise_tag) (_S d) (Height Al) Al)
    as (Al' & E & HAl & WAl & BAl).
  { split; [| lia]. apply Length_nonneg. cbn. lia. }
  { cbn. lia. }
  { intros i j Hi Hj. unfold shift_available, shift_index.
    unfold shifts_sized in Hshifts. lia. }
  exists R, (with_LocalMatrix D1 rank Al'). split; [exact ER | split].
  - assert (apply_impl_vdist d A rowwise_tag rank sketch_of_A_dist
            = (Return tt, with_LocalMatrix D1 rank Al')) as Erun.
    { cbn [apply_impl_vdist]. unfold apply_impl_vdist_rowwise.
      rewrite (bind_Return _ _ _ _ _ Edist). unfold on_LocalMatrix.
      fold Al. unfold bind at 1, get.
      cbn [shift_index] in E. now rewrite E. }
    unfold RFT_apply_dist, try_catch.
    destruct HCol as [-> | ->]; now rewrite Erun.
  - intros i j Hi Hown. cbn [global with_LocalMatrix buffer D1 Grid_size].
    rewrite Hown, Z.eqb_refl, BAl, BR.
    pose proof (Length_owner (Height P) (Grid_size A) i ltac:(lia) Hi) as Hloc.
    rewrite Hown in Hloc.
    assert (buffer Al (i / Grid_size A) j = buffer P i j) as ->.
    { cbn. f_equal.
      pose proof (Z.div_mod i (Grid_size A) ltac:(lia)). lia. }
    assert (Height Al = Length (Height P) rank (Grid_size A)) as -> by reflexivity.
    unfold in_matrix, shift_index. rewrite HW.
    destruct (Z.leb_spec 0 (i / Grid_size A)); [| lia].
    destruct (Z.ltb_spec (i / Grid_size A) (Length (Height P) rank (Grid_size A)));
      [| lia].
    destruct (Z.leb_spec 0 i); [| lia].
    destruct (Z.ltb_spec i (Height P)); [| lia].
    destruct (0 <=? j), (j <? _S d); reflexivity.
Qed.

(** A process other than the first owns fewer than [S] of the [S] rows. *)
Lemma Length_short S rank p :
  0 < p -> 1 <= rank -> 1 <= S -> 0 <= Length S rank p < S.
Proof.
  intros Hp Hr HS. split; [now apply Length_nonneg |].
  unfold Length. destruct (Z.ltb_spec rank S); [| lia].
  assert ((S - rank - 1) / p <= S - rank - 1); [| lia].
  apply Z.div_le_upper_bound; [lia |]. nia.
Qed.

(** X13: columnwise, the distributed specialization does not agree with the
    local one as soon as the grid has a second process: on every process
    but the first, the loop over [_S] rows leaves the local matrix, which
    has the rows of that process only, and [apply] throws. *)
Lemma RFT_columnwise_dist_out_of_bounds (ColDist : Distribution_tag)
    (d : RFT_data_t Data) (A : DistMatrix) (sketch_of_A_dist : DistMatrix)
    (P : Matrix) (rank : Z) :
  ColDist = VC \/ ColDist = VR ->
  dist_dense_apply (_underlying_data d) A columnwise_tag sketch_of_A_dist
  = (Return tt, mk_DistMatrix (Grid_size A) P) ->
  Height P = _S d -> 0 < Width P ->
  shifts_sized d -> 1 <= _S d ->
  1 <= rank < Grid_size A ->
  fst (RFT_apply_dist ColDist d A columnwise_tag rank sketch_of_A_dist)
  = Throw (elemental_exception "Entry out of bounds").
Proof.
  intros HCol Edist HH HW Hshifts HS Hrank.
  set (D1 := mk_DistMatrix (Grid_size A) P) in *.
  set (Al := LocalMatrix D1 rank).
  pose proof (Length_short (_S d) rank (Grid_size A) ltac:(lia) ltac:(lia) HS) as Hshort.
  assert (Height Al = Length (_S d) rank (Grid_size A)) as HAl
    by (cbn; now rewrite HH).
  set (h := Z.to_nat (Height Al)).
  (* the rows the process has are transformed *)
  destruct (rows_loop d (shift_index columnwise_tag) 0 h 0 Al)
    as (Al1 & E1 & H1 & W1 & _).
  { cbn. lia. }
  { lia. }
  { intros i Hi. unfold shift_available, shift_index.
    unfold shifts_sized in Hshifts. lia. }
  (* the next row is not in the local matrix *)
  assert (transform_entry d (Z.of_nat h) 0 (Z.of_nat h) Al1
          = (Throw (std_logic_error "Entry out of bounds"), Al1)) as E2.
  { unfold transform_entry, bind, Matrix_Get, in_matrix. rewrite H1.
    destruct (Z.ltb_spec (Z.of_nat h) (Height Al)); [lia |].
    now rewrite andb_false_r. }
  assert (for_loop 0 (_S d) (fun i => transform_entry d i 0 i) Al
          = (Throw (std_logic_error "Entry out of bounds"), Al1)) as Ecol.
  { unfold for_loop. rewrite int_range_0.
    replace (Z.to_nat (_S d)) with (h + S (Z.to_nat (_S d) - h - 1))%nat by lia.
    rewrite seq_app, map_app. cbn [seq map Nat.add].
    exact (for_each_app_Throw _ _ _ _ _ _ _ _ E1 E2). }
  assert (apply_impl_vdist d A columnwise_tag rank sketch_of_A_dist
          = (Throw (std_logic_error "Entry out of bounds"),
             with_LocalMatrix D1 rank Al1)) as Erun.
  { cbn [apply_impl_vdist]. unfold apply_impl_vdist_columnwise.
    rewrite (bind_Return _ _ _ _ _ Edist). unfold on_LocalMatrix.
    fold Al. unfold bind at 1, get. unfold for_loop at 1. rewrite int_range_0.
    replace (Z.to_nat (Width Al)) with (S (Z.to_nat (Width Al) - 1))
      by (cbn; lia).
    cbn [seq map for_each]. unfold bind at 1.
    change (Z.of_nat 0) with 0. now rewrite Ecol. }
  unfold RFT_apply_dist, try_catch.
  destruct HCol as [-> | ->]; now rewrite Erun.
Qed.

End RFT_dist_facts.

Section RFT_dist_examples.
Import StandinLibm StandinDense.

(** The rowwise agreement on a 3 x 2 input over two processes. *)
Lemma RFT_rowwise_dist_agrees_witness :
  exists R D,
    RFT_apply rft2 A32 rowwise_tag (Zeros 3 2) = (Return tt, R)
    /\ RFT_apply_dist VC rft2 (mk_DistMatrix 2 A32) rowwise_tag 1
         (mk_DistMatrix 2 (Zeros 3 2)) = (Return tt, D)
    /\ forall i j, 0 <= i < 3 -> i mod 2 = 1 ->
         buffer (global D) i j = buffer R i j.
Proof.
  apply (RFT_rowwise_dist_agrees VC rft2 (mk_DistMatrix 2 A32) (Zeros 3 2)
           (mk_DistMatrix 2 (Zeros 3 2)) (project identity2 A32 rowwise_tag) 1).
  - now left.
  - reflexivity.
  - reflexivity.
  - cbn. lia.
  - reflexivity.
  - cbn. lia.
Defined.

(** C8 fails columnwise: on the 2 x 1 input, with [S = 2] and a grid of two
    processes, the local specialization returns, while both processes of the
    distributed one run their loop over [_S = 2] rows of a local matrix of
    one row and stop on the entry out of bounds; before that, the process of
    rank 1 has transformed row 1 of the result with [_shifts[0]], where the
    local specialization uses [_shifts[1]]. *)
Lemma RFT_columnwise_dist_diverges :
  fst (RFT_apply rft2 A21 columnwise_tag (Zeros 2 1)) = Return tt
  /\ fst (RFT_apply_dist VC rft2 (mk_DistMatrix 2 A21) columnwise_tag 0
            (mk_DistMatrix 2 (Zeros 2 1)))
     = Throw (elemental_exception "Entry out of bounds")
  /\ fst (RFT_apply_dist VC rft2 (mk_DistMatrix 2 A21) columnwise_tag 1
            (mk_DistMatrix 2 (Zeros 2 1)))
     = Throw (elemental_exception "Entry out of bounds")
  /\ buffer (snd (RFT_apply rft2 A21 columnwise_tag (Zeros 2 1))) 1 0
     = feature rft2 1 2
  /\ buffer (global (snd (RFT_apply_dist VC rft2 (mk_DistMatrix 2 A21)
                            columnwise_tag 1 (mk_DistMatrix 2 (Zeros 2 1))))) 1 0
     = feature rft2 0 2
  /\ (feature rft2 0 2 =? feature rft2 1 2)%float = false.
Proof. repeat split; vm_compute; reflexivity. Qed.

End RFT_dist_examples.

(** ** The dense transform from distributed input to local output (C10) *)

Section Dense_local_facts.
  Context {Data : Type} `{DD : DenseData Data} `{DDT : DistDenseTransform Data}.

(** C10, as amended: [apply] assigns to the caller's [sketch_of_A] on the
    process of rank 0 in the world communicator only.  On a process of
    another rank, [sketch_of_A] after the call is what it was before it,
    whether the call returns or throws; on rank 0, for [[VC, *]] or
    [[VR, *]] input, a call whose transform returns leaves in [sketch_of_A]
    the local matrix of the [[CIRC, CIRC]] copy of the sketched result,
    which is the sketched result itself when that process is the root of
    the grid of [A]. *)
Theorem dense_to_local_assigns_on_rank_0 (ColDist : Distribution_tag)
    (data : Data) (A : DistMatrix) (tag : Dimension) (me : process)
    (sketch_of_A : Matrix) :
  (world_rank me <> 0 ->
     snd (dense_apply_to_local ColDist data A tag me sketch_of_A) = sketch_of_A)
  /\ (world_rank me = 0 -> ColDist = VC \/ ColDist = VR ->
      forall sketch_of_A_CD_STAR,
        dist_dense_apply data A tag (intermediate data A tag)
        = (Return tt, sketch_of_A_CD_STAR) ->
        dense_apply_to_local ColDist data A tag me sketch_of_A
        = (Return tt, CIRC_CIRC_Matrix sketch_of_A_CD_STAR (grid_rank me))
        /\ (grid_rank me = 0 ->
            dense_apply_to_local ColDist data A tag me sketch_of_A
            = (Return tt, global sketch_of_A_CD_STAR))).
Proof.
  split.
  - intros Hrank. apply Z.eqb_neq in Hrank.
    unfold dense_apply_to_local, try_catch, dense_apply_impl_vdist,
      dense_apply_impl_vdist_rowwise, dense_apply_impl_vdist_columnwise, throw.
    destruct ColDist; try reflexivity; destruct tag;
      match goal with
      | |- context [dist_dense_apply ?a ?b ?c ?s] =>
          destruct (dist_dense_apply a b c s) as [[[] | e] D]
      end;
      rewrite ?Hrank; cbn [snd]; try reflexivity;
      destruct (rethrow e); reflexivity.
  - intros Hrank HCol D E.
    assert (dense_apply_to_local ColDist data A tag me sketch_of_A
            = (Return tt, CIRC_CIRC_Matrix D (grid_rank me))) as Eapply.
    { unfold dense_apply_to_local, try_catch, dense_apply_impl_vdist,
        dense_apply_impl_vdist_rowwise, dense_apply_impl_vdist_columnwise.
      destruct HCol as [-> | ->]; destruct tag; cbn [intermediate] in E;
        rewrite E, Hrank; reflexivity. }
    split; [exact Eapply |].
    intros Hroot. rewrite Eapply. unfold CIRC_CIRC_Matrix. now rewrite Hroot.
Qed.

End Dense_local_facts.

Section Dense_local_examples.
Import StandinDense.

(** C10 on two processes: the output of world rank 1 stays the 1 x 1 matrix
    it was, and world rank 0, root of the grid, receives the sketched
    result. *)
Lemma dense_to_local_assigns_on_rank_0_witness :
  snd (dense_apply_to_local VC identity2 (mk_DistMatrix 2 A21) columnwise_tag
         (mk_process 1 1) (Zeros 1 1)) = Zeros 1 1
  /\ dense_apply_to_local VC identity2 (mk_DistMatrix 2 A21) columnwise_tag
       (mk_process 0 0) (Zeros 1 1)
     = (Return tt,
        global (mk_DistMatrix 2 (project identity2 A21 columnwise_tag))).
Proof.
  split.
  - apply (proj1 (dense_to_local_assigns_on_rank_0 VC identity2
                    (mk_DistMatrix 2 A21) columnwise_tag (mk_process 1 1)
                    (Zeros 1 1))).
    discriminate.
  - assert (dist_dense_apply identity2 (mk_DistMatrix 2 A21) columnwise_tag
              (intermediate identity2 (mk_DistMatrix 2 A21) columnwise_tag)
            = (Return tt,
               mk_DistMatrix 2 (project identity2 A21 columnwise_tag))) as E
      by reflexivity.
    exact (proj2 (proj2 (dense_to_local_assigns_on_rank_0 VC identity2
                           (mk_DistMatrix 2 A21) columnwise_tag
                           (mk_process 0 0) (Zeros 1 1))
                    eq_refl (or_introl eq_refl) _ E) eq_refl).
Defined.

(** C10 as stated fails where the process of world rank 0 is not the root
    of the grid of [A]: the call returns, and what it assigns to
    [sketch_of_A] is the empty local matrix of the [[CIRC, CIRC]] copy, not
    the 2 x 1 sketched result. *)
Lemma dense_to_local_empty_off_root :
  dense_apply_to_local VC identity2 (mk_DistMatrix 2 A21) columnwise_tag
    (mk_process 0 1) (Zeros 1 1) = (Return tt, Zeros 0 0)
  /\ dist_dense_apply identity2 (mk_DistMatrix 2 A21) columnwise_tag
       (intermediate identity2 (mk_DistMatrix 2 A21) columnwise_tag)
     = (Return tt, mk_DistMatrix 2 (project identity2 A21 columnwise_tag))
  /\ Height (project identity2 A21 columnwise_tag) = 2
  /\ Height (Zeros 0 0) = 0.
Proof. repeat split; reflexivity. Qed.

End Dense_local_examples.

(* ================================================================== *)
(** * Further properties of the code *)

(** ** context.hpp: failed allocations, runs of allocations *)

Lemma set_counter_same ctx : set_counter (_counter ctx) ctx = ctx.
Proof. destruct ctx. reflexivity. Qed.

(** X1: when the constructor of the array throws a [std::runtime_error],
    [allocate_random_samples_array] and [allocate_random_array] throw a
    [skylark_exception] with its message, and the context after the call is
    the context before it: the counter has not advanced. *)
Theorem refused_allocation_keeps_context {Distribution ValueType}
    `{Randgen Distribution ValueType} `{RandgenInt}
    (size : Z) (d : Distribution) (ctx : context_t) (what : string) :
  (samples_ctor_what (_counter ctx) size (_seed ctx) d = Some what ->
   allocate_random_samples_array size d ctx = (Throw (skylark_exception what), ctx))
  /\ (array_ctor_what (_counter ctx) size (_seed ctx) = Some what ->
      allocate_random_array size ctx = (Throw (skylark_exception what), ctx)).
Proof.
  split; intros E.
  - unfold allocate_random_samples_array. now rewrite E.
  - unfold allocate_random_array. now rewrite E.
Qed.

(** X2: a run of allocations, of whatever sizes and by either function,
    changes nothing in the context but the counter, which it leaves at the
    counter before the run plus the total size, modulo [2^64]. *)
Theorem allocation_run_counter ctx arrays ctx' :
  allocation_run ctx arrays ctx' ->
  counter_in_range ctx ->
  counter_in_range ctx'
  /\ _counter ctx' = to_size_t (_counter ctx + total_size arrays)
  /\ _seed ctx' = _seed ctx
  /\ context_comm ctx' = context_comm ctx
  /\ context_rank ctx' = context_rank ctx
  /\ context_size ctx' = context_size ctx.
Proof.
  induction 1 as [ctx | ctx size ctx1 base asize rest ctx2 Hsize Halloc Hrun IH];
    intros Hrange.
  - cbn [total_size fold_right]. rewrite Z.add_0_r.
    rewrite to_size_t_small by exact Hrange. repeat split; try apply Hrange.
  - apply allocates_inv in Halloc as (-> & -> & ->).
    destruct IH as (Hr & Hc & Hs & Hcomm & Hrank & Hsz).
    { unfold counter_in_range. cbn [_counter set_counter]. apply to_size_t_range. }
    cbn [_counter _seed context_comm context_rank context_size set_counter] in *.
    repeat split; try apply Hr; auto.
    rewrite Hc. cbn [total_size fold_right snd]. fold (total_size rest).
    unfold to_size_t. rewrite Zplus_mod_idemp_l. f_equal. lia.
Qed.

(** X4: an allocation of no samples is given no offset and leaves the
    context as it was. *)
Theorem empty_allocation ctx ctx' base asize :
  counter_in_range ctx ->
  allocates ctx 0 ctx' base asize ->
  ctx' = ctx /\ forall o, in_reserved base asize o = false.
Proof.
  intros Hrange Halloc. apply allocates_inv in Halloc as (-> & -> & ->).
  split.
  - rewrite Z.add_0_r, to_size_t_small by exact Hrange. apply set_counter_same.
  - intros o. unfold in_reserved.
    pose proof (to_size_t_range (o - _counter ctx)) as Hr.
    destruct (Z.ltb_spec (to_size_t (o - _counter ctx)) 0); [lia |].
    apply andb_false_r.
Qed.

Section Allocation_extra_examples.
Import StandinChecked.

(** X1 two offsets before the end: three more samples are refused. *)
Lemma refused_allocation_keeps_context_witness :
  allocate_random_samples_array 3 mk_exponential near_the_end
  = (Throw (skylark_exception "counter overflow"), near_the_end).
Proof.
  apply (proj1 (refused_allocation_keeps_context 3 mk_exponential near_the_end
                  "counter overflow")).
  reflexivity.
Defined.

End Allocation_extra_examples.

Section Allocation_run_examples.
Import Standin.

(** X2 from a fresh context of seed 42: 3 exponential samples, then 5
    integers. *)
Lemma allocation_run_counter_witness :
  _counter
    (snd (allocate_random_array 5
       (snd (allocate_random_samples_array 3 mk_exponential
          (context_t_ctor 42 world))))) = to_size_t (0 + (3 + (5 + 0))).
Proof.
  refine (proj1 (proj2
    (allocation_run_counter (context_t_ctor 42 world) [(0, 3); (3, 5)] _ _ _))).
  - eapply (run_step _ 3 _ 0 3); [lia | |].
    + eapply (allocates_samples _ _ _ _ _ mk_exponential); reflexivity.
    + eapply (run_step _ 5 _ 3 5); [lia | |].
      * eapply allocates_array; reflexivity.
      * apply run_done.
  - unfold counter_in_range, size_t_modulus. simpl. lia.
Defined.

(** X3 on the same run: offset 4 is not in both arrays. *)
Lemma allocation_run_disjoint_witness :
  in_reserved 0 3 4 && in_reserved 3 5 4 = false.
Proof.
  refine (allocation_run_disjoint (context_t_ctor 42 world) [(0, 3); (3, 5)]
            (snd (allocate_random_array 5
               (snd (allocate_random_samples_array 3 mk_exponential
                  (context_t_ctor 42 world)))))
            _ _ _ 0%nat 1%nat (0, 3) (3, 5) _ eq_refl eq_refl 4).
  - eapply (run_step _ 3 _ 0 3); [lia | |].
    + eapply (allocates_samples _ _ _ _ _ mk_exponential); reflexivity.
    + eapply (run_step _ 5 _ 3 5); [lia | |].
      * eapply allocates_array; reflexivity.
      * apply run_done.
  - unfold counter_in_range, size_t_modulus. simpl. lia.
  - unfold size_t_modulus. simpl. lia.
  - discriminate.
Defined.

(** X4 on a fresh context. *)
Lemma empty_allocation_witness :
  snd (allocate_random_array 0 (context_t_ctor 42 world)) = context_t_ctor 42 world.
Proof.
  refine (proj1 (empty_allocation (context_t_ctor 42 world) _ 0 0 _ _)).
  - unfold counter_in_range, size_t_modulus. simpl. lia.
  - eapply allocates_array; reflexivity.
Defined.

End Allocation_run_examples.

(** ** WZT_data.hpp: what a construction changes, the constructor from a tree *)

Section WZT_extra.
  Context `{HB : HashBase} `{LM : Libm}
          `{RGr : Randgen rademacher_distribution_t float}.

Lemma rescale_Return_length pmvals P i (v v' : list float) :
  rescale pmvals P i v = (Return tt, v') -> length v' = length v.
Proof.
  unfold rescale, bind, get.
  destruct (pmvals !! Z.to_nat i), (v !! Z.to_nat i); intros E; inversion E.
  apply length_insert.
Qed.

Lemma for_each_rescale_length pmvals P l (v v' : list float) :
  for_each (rescale pmvals P) l v = (Return tt, v') -> length v' = length v.
Proof.
  revert v. induction l as [| i l IH]; intros v E; cbn [for_each] in E.
  - inversion E. reflexivity.
  - unfold bind in E.
    destruct (rescale pmvals P i v) as [[[] | e] v1] eqn:E1; [| discriminate].
    rewrite (IH _ E). exact (rescale_Return_length _ _ _ _ _ E1).
Qed.

(** What [_populate] has done when it returns. *)
Lemma populate_Return_inv this ctx d ctx2 :
  _populate this ctx = (Return d, ctx2) ->
  _P d = _P this
  /\ base_N (Base d) = base_N (Base this)
  /\ base_S (Base d) = base_S (Base this)
  /\ base_name (Base d) = base_name (Base this)
  /\ row_idx (Base d) = row_idx (Base this)
  /\ length (row_value (Base d)) = length (row_value (Base this))
  /\ ctx2 = set_counter
              (to_size_t (_counter ctx + to_size_t (base_N (Base this)))) ctx.
Proof.
  unfold _populate. intros E.
  apply bind_inv_Return in E as (pmvals & c1 & Eg & E).
  unfold generate_random_samples_array in Eg.
  apply bind_inv_Return in Eg as (a & c1' & Ea & Er).
  inversion Er; subst c1' pmvals. clear Er.
  apply allocate_samples_Return in Ea as [_ ->].
  destruct (for_loop 0 (base_N (Base this)) _ (row_value (Base this)))
    as [[[] | e] v] eqn:Eloop; inversion E; subst d ctx2.
  cbn [Base _P set_row_value base_N base_S base_name row_idx row_value].
  repeat split. exact (for_each_rescale_length _ _ _ _ _ Eloop).
Qed.

(** [_populate] on a descriptor with a magnitude per coordinate. *)
Lemma populate_Return_spec this ctx :
  0 <= base_N (Base this) < size_t_modulus ->
  length (row_value (Base this)) = Z.to_nat (base_N (Base this)) ->
  samples_ctor_what (_counter ctx) (base_N (Base this)) (_seed ctx) mk_rademacher
  = None ->
  exists (d : WZT_data_t) (pmvals : random_samples_array_t rademacher_distribution_t)
         (ctx2 : context_t),
    _populate this ctx = (Return d, ctx2)
    /\ allocate_random_samples_array (base_N (Base this)) mk_rademacher ctx
       = (Return pmvals, ctx2)
    /\ _P d = _P this
    /\ forall i e, 0 <= i < base_N (Base this) ->
         row_value (Base this) !! Z.to_nat i = Some e ->
         row_value (Base d) !! Z.to_nat i
         = Some (samples_at pmvals i * pow (1 / e) (1 / _P this))%float.
Proof.
  intros HN Hlen Hctor.
  pose proof (allocate_samples_total _ mk_rademacher ctx Hctor) as Ea.
  destruct (populate_loop
              (map (samples_at (mk_random_samples_array (_counter ctx)
                                  (base_N (Base this)) (_seed ctx) mk_rademacher))
                   (int_range 0 (base_N (Base this))))
              (_P this) (base_N (Base this)) (row_value (Base this)))
    as (v' & Erun & Hlen' & Hget).
  { lia. }
  { rewrite length_map, int_range_length. f_equal. lia. }
  { exact Hlen. }
  do 3 eexists. split; [| split; [exact Ea | split]].
  - unfold _populate. rewrite to_size_t_small by exact HN.
    rewrite (bind_Return _ _ _ _ _ (generate_Return _ _ _ _ _ Ea)).
    rewrite Erun. reflexivity.
  - reflexivity.
  - intros i e Hi Ee. cbn [Base set_row_value row_value].
    apply Hget; auto. now apply int_range_lookup.
Qed.

(** X5: a descriptor the constructor returns has a [p] that passed the range
    test, and differs from the base descriptor in its magnitudes only: [N],
    [S], the name and the indices are the base's, there are as many
    magnitudes as the base had, and the counter has advanced past the base's
    samples by [N] more, modulo [2^64]. *)
Theorem WZT_ctor_changes_magnitudes_only (N S : Z) (p : float)
    (ctx ctx2 : context_t) (d : WZT_data_t) :
  WZT_data_t_ctor N S p ctx = (Return d, ctx2) ->
  ((p <? 1) || (2 <? p))%float = false
  /\ _P d = p
  /\ exists b ctx1,
       Base_ctor N S "WZT" ctx = (Return b, ctx1)
       /\ base_N (Base d) = base_N b
       /\ base_S (Base d) = base_S b
       /\ base_name (Base d) = base_name b
       /\ row_idx (Base d) = row_idx b
       /\ length (row_value (Base d)) = length (row_value b)
       /\ ctx2 = set_counter (to_size_t (_counter ctx1 + to_size_t (base_N b))) ctx1.
Proof.
  unfold WZT_data_t_ctor. intros E.
  apply bind_inv_Return in E as (b & ctx1 & Eb & E).
  destruct ((p <? 1) || (2 <? p))%float; [discriminate |].
  apply populate_Return_inv in E as (HP & HN & HS & Hname & Hidx & Hlen & Hctx).
  cbn [Base _P] in *.
  split; [reflexivity | split; [exact HP |]].
  exists b, ctx1. auto 10.
Qed.

(** X6: the constructor from a tree does not test the range of [p]: for a
    tree with any double at "sketch.p", once the base class is constructed
    from the tree (with [N] coordinates) and the allocation of the [N]
    Rademacher samples returns, it returns a descriptor with that [p] and
    the magnitudes [sign_i * pow(1 / e_i, 1 / p)]. *)
Theorem WZT_ctor_ptree_spec (sketch : ptree) (p : float) (ctx ctx1 : context_t)
    (b : hash_transform_data_t) :
  sketch !! "sketch.p" = Some (pt_double p) ->
  Base_ctor_ptree sketch ctx = (Return b, ctx1) ->
  0 <= base_N b < size_t_modulus ->
  length (row_value b) = Z.to_nat (base_N b) ->
  samples_ctor_what (_counter ctx1) (base_N b) (_seed ctx1) mk_rademacher = None ->
  exists (d : WZT_data_t) (pmvals : random_samples_array_t rademacher_distribution_t)
         (ctx2 : context_t),
    WZT_data_t_ctor_ptree sketch ctx = (Return d, ctx2)
    /\ allocate_random_samples_array (base_N b) mk_rademacher ctx1
       = (Return pmvals, ctx2)
    /\ _P d = p
    /\ forall i e, 0 <= i < base_N b ->
         row_value b !! Z.to_nat i = Some e ->
         row_value (Base d) !! Z.to_nat i
         = Some (samples_at pmvals i * pow (1 / e) (1 / p))%float.
Proof.
  intros Hp Eb HN Hlen Hctor.
  destruct (populate_Return_spec (mk_WZT_data b p) ctx1 HN Hlen Hctor)
    as (d & pmvals & ctx2 & Epop & Ea & HP & Hget).
  exists d, pmvals, ctx2. split; [| auto].
  unfold WZT_data_t_ctor_ptree. rewrite (bind_Return _ _ _ _ _ Eb).
  unfold ptree_get_double. rewrite Hp. unfold bind, ret. exact Epop.
Qed.

(** X7: from a tree without "sketch.p" the constructor throws
    [ptree_bad_path], and from a tree whose "sketch.p" is not a double
    [ptree_bad_data], in both cases after the base class has been
    constructed from the tree and with the context as that left it. *)
Theorem WZT_ctor_ptree_without_p (sketch : ptree) (ctx : context_t) :
  (forall p, sketch !! "sketch.p" <> Some (pt_double p)) ->
  WZT_data_t_ctor_ptree sketch ctx
  = match Base_ctor_ptree sketch ctx with
    | (Return _, ctx1) =>
        (Throw (match sketch !! "sketch.p" with
                | None => ptree_bad_path "sketch.p"
                | Some _ => ptree_bad_data "sketch.p"
                end), ctx1)
    | (Throw e, ctx1) => (Throw e, ctx1)
    end.
Proof.
  intros Hp. unfold WZT_data_t_ctor_ptree, bind.
  destruct (Base_ctor_ptree sketch ctx) as [[b | e] ctx1]; [| reflexivity].
  unfold ptree_get_double.
  destruct (sketch !! "sketch.p") as [[z | q | s] |] eqn:E; try reflexivity.
  now destruct (Hp q).
Qed.

End WZT_extra.

Section WZT_extra_examples.
Import Standin StandinLibm HashModel.

(** X5 at [N = 3], [S = 2], [p = 1]. *)
Lemma WZT_ctor_changes_magnitudes_only_witness :
  ((1 <? 1) || (2 <? 1))%float = false.
Proof.
  refine (proj1 (WZT_ctor_changes_magnitudes_only 3 2 1%float
                   (context_t_ctor 1 world)
                   (set_counter 9 (context_t_ctor 1 world))
                   (mk_WZT_data
                      (mk_hash_transform_data 3 2 "WZT" [0; 1; 0]
                         [2; -0x1.5555555555555p+0; 1]%float) 1) _)).
  vm_compute. reflexivity.
Defined.

(** X6 on a tree with [p = 3]. *)
Lemma WZT_ctor_ptree_spec_witness :
  exists d pmvals ctx2,
    WZT_data_t_ctor_ptree
      (ptree_put "sketch.p" (pt_double 3)
         (write (mk_hash_transform_data 3 2 "WZT" [] []) ∅))
      (context_t_ctor 1 world) = (Return d, ctx2)
    /\ allocate_random_samples_array 3 mk_rademacher
         (set_counter 6 (context_t_ctor 1 world)) = (Return pmvals, ctx2)
    /\ _P d = 3%float
    /\ forall i e, 0 <= i < 3 ->
         [0.5; 0.75; 1]%float !! Z.to_nat i = Some e ->
         row_value (Base d) !! Z.to_nat i
         = Some (samples_at pmvals i * pow (1 / e) (1 / 3))%float.
Proof.
  apply (WZT_ctor_ptree_spec
           (ptree_put "sketch.p" (pt_double 3)
              (write (mk_hash_transform_data 3 2 "WZT" [] []) ∅))
           3%float (context_t_ctor 1 world)
           (set_counter 6 (context_t_ctor 1 world))
           (mk_hash_transform_data 3 2 "WZT" [0; 1; 0] [0.5; 0.75; 1]%float)).
  - reflexivity.
  - vm_compute. reflexivity.
  - unfold size_t_modulus. simpl. lia.
  - reflexivity.
  - reflexivity.
Defined.

(** X7 on the tree the base class alone has written. *)
Lemma WZT_ctor_ptree_without_p_witness :
  WZT_data_t_ctor_ptree (write (mk_hash_transform_data 3 2 "WZT" [] []) ∅)
    (context_t_ctor 1 world)
  = match Base_ctor_ptree (write (mk_hash_transform_data 3 2 "WZT" [] []) ∅)
            (context_t_ctor 1 world) with
    | (Return _, ctx1) =>
        (Throw (match write (mk_hash_transform_data 3 2 "WZT" [] []) ∅
                      !! "sketch.p" with
                | None => ptree_bad_path "sketch.p"
                | Some _ => ptree_bad_data "sketch.p"
                end), ctx1)
    | (Throw e, ctx1) => (Throw e, ctx1)
    end.
Proof.
  apply WZT_ctor_ptree_without_p.
  intros p. vm_compute. discriminate.
Defined.

End WZT_extra_examples.

(** ** The [apply] functions: distributions, exceptions, one process *)

Lemma try_catch_rethrow_Throw {St A} (c : SE St A) s e s' :
  try_catch c rethrow s = (Throw e, s') ->
  (forall what, e <> std_logic_error what)
  /\ (forall what, e <> boost_mpi_exception what).
Proof.
  unfold try_catch. destruct (c s) as [[a | e0] s0]; [discriminate |].
  destruct e0; cbn [rethrow]; intros E; inversion E; split; intros; discriminate.
Qed.

Section Apply_extra.
  Context {Data : Type} `{LM : Libm}
          {InputType : Type} `{MT : MatrixType InputType}
          `{DT : DenseTransform Data InputType}
          `{DD : DenseData Data} `{DDT : DistDenseTransform Data}.

(** X9: for a distributed input whose column distribution is neither [VC]
    nor [VR], the [apply] of the random feature transform and the [apply]
    of the dense transform to local output throw
    [unsupported_matrix_distribution] and leave the output as it was,
    whatever the input, the orientation and the process. *)
Theorem unsupported_distribution_rejected (ColDist : Distribution_tag)
    (d : RFT_data_t Data) (data : Data) (A : DistMatrix) (tag : Dimension)
    (rank : Z) (me : process) (sketch_of_A_dist : DistMatrix) (sketch_of_A : Matrix) :
  ColDist <> VC -> ColDist <> VR ->
  RFT_apply_dist ColDist d A tag rank sketch_of_A_dist
  = (Throw unsupported_matrix_distribution, sketch_of_A_dist)
  /\ dense_apply_to_local ColDist data A tag me sketch_of_A
     = (Throw unsupported_matrix_distribution, sketch_of_A).
Proof.
  intros HVC HVR. unfold RFT_apply_dist, dense_apply_to_local.
  destruct ColDist; try contradiction; split; reflexivity.
Qed.


(** X11: no [std::logic_error] and no [boost::mpi::exception] leaves an
    [apply]: whatever the local random feature transform, the distributed
    one or the dense transform to local output throws, it is not one of
    these two. *)
Theorem apply_lets_no_library_exception_out (ColDist : Distribution_tag)
    (d : RFT_data_t Data) (data : Data) (A : InputType) (A_dist : DistMatrix)
    (tag : Dimension) (rank : Z) (me : process)
    (sketch_of_A : Matrix) (sketch_of_A_dist : DistMatrix) (e : exception) :
  (exists M, RFT_apply d A tag sketch_of_A = (Throw e, M))
  \/ (exists D, RFT_apply_dist ColDist d A_dist tag rank sketch_of_A_dist
                = (Throw e, D))
  \/ (exists M, dense_apply_to_local ColDist data A_dist tag me sketch_of_A
                = (Throw e, M)) ->
  (forall what, e <> std_logic_error what)
  /\ (forall what, e <> boost_mpi_exception what).
Proof.
  intros [[M E] | [[D E] | [M E]]].
  - exact (try_catch_rethrow_Throw _ _ _ _ E).
  - unfold RFT_apply_dist in E.
    destruct ColDist;
      first [ exact (try_catch_rethrow_Throw _ _ _ _ E)
            | inversion E; split; intros; discriminate ].
  - unfold dense_apply_to_local in E.
    destruct ColDist;
      first [ exact (try_catch_rethrow_Throw _ _ _ _ E)
            | inversion E; split; intros; discriminate ].
Qed.

End Apply_extra.

Section RFT_single_process.
  Context {Data : Type} `{LM : Libm}
          `{DT : DenseTransform Data Matrix} `{DDT : DistDenseTransform Data}.

(** X14: on a grid of one process the distributed specialization agrees
    with the local one columnwise as well: when the two underlying dense
    transforms leave the same projection, the distributed result is, entry
    for entry, the matrix the local specialization computes. *)
Theorem RFT_columnwise_one_process_agrees (ColDist : Distribution_tag)
    (d : RFT_data_t Data) (A : DistMatrix) (sketch_of_A : Matrix)
    (sketch_of_A_dist : DistMatrix) (P : Matrix) :
  ColDist = VC \/ ColDist = VR ->
  Grid_size A = 1 ->
  dense_apply (_underlying_data d) (global A) columnwise_tag sketch_of_A
  = (Return tt, P) ->
  dist_dense_apply (_underlying_data d) A columnwise_tag sketch_of_A_dist
  = (Return tt, mk_DistMatrix (Grid_size A) P) ->
  projected columnwise_tag (_S d) (base_Height A) (base_Width A) P ->
  shifts_sized d ->
  exists R D,
    RFT_apply d (global A) columnwise_tag sketch_of_A = (Return tt, R)
    /\ RFT_apply_dist ColDist d A columnwise_tag 0 sketch_of_A_dist = (Return tt, D)
    /\ Height (global D) = Height R /\ Width (global D) = Width R
    /\ forall i j, buffer (global D) i j = buffer R i j.
Proof.
  intros HCol Hone Eloc Edist Hdims Hshifts.
  destruct (apply_impl_columnwise_Return (MT := Matrix_MatrixType) d (global A)
              sketch_of_A P Eloc Hdims Hshifts)
    as (R & ER & HR & WR & BR).
  pose proof (shifts_sized_nonneg d Hshifts) as HS.
  cbn [projected] in Hdims. destruct Hdims as (HH & HW & Hpos).
  rewrite Hone in Edist.
  set (D1 := mk_DistMatrix 1 P) in *.
  set (Al := LocalMatrix D1 0).
  assert (Height Al = _S d) as HAl.
  { cbn. unfold Length. rewrite HH.
    destruct (Z.ltb_spec 0 (_S d)); [| lia].
    rewrite Z.div_1_r. lia. }
  assert (Width Al = Width P) as WAl by reflexivity.
  assert (forall i j, buffer Al i j = buffer P i j) as BAl.
  { intros i j. cbn. f_equal. lia. }
  destruct (entries_loop d (shift_index columnwise_tag) (Width Al) (_S d) Al)
    as (Al' & E & HAl' & WAl' & BAl').
  { lia. }
  { cbn [base_Width Matrix_MatrixType] in HW. lia. }
  { intros i j Hi Hj. unfold shift_available, shift_index.
    unfold shifts_sized in Hshifts. lia. }
  exists R, (with_LocalMatrix D1 0 Al'). split; [| split; [| split; [| split]]].
  - unfold RFT_apply, try_catch. cbn [apply_impl]. now rewrite ER.
  - assert (apply_impl_vdist d A columnwise_tag 0 sketch_of_A_dist
            = (Return tt, with_LocalMatrix D1 0 Al')) as Erun.
    { cbn [apply_impl_vdist]. unfold apply_impl_vdist_columnwise.
      rewrite (bind_Return _ _ _ _ _ Edist). unfold on_LocalMatrix.
      fold Al. unfold bind at 1, get.
      cbn [shift_index] in E. now rewrite E. }
    unfold RFT_apply_dist, try_catch.
    destruct HCol as [-> | ->]; now rewrite Erun.
  - cbn. congruence.
  - cbn. congruence.
  - intros i j. cbn [global with_LocalMatrix buffer D1 Grid_size].
    rewrite Z.mod_1_r, Z.div_1_r. cbn [Z.eqb].
    rewrite BAl', BR, BAl. unfold in_matrix, shift_index.
    rewrite WAl, HH.
    destruct (0 <=? i), (i <? _S d), (0 <=? j), (j <? Width P); reflexivity.
Qed.

End RFT_single_process.

Section Apply_extra_examples.
Import StandinLibm.

(** X9 for a [[MC, *]] input. *)
Lemma unsupported_distribution_rejected_witness :
  RFT_apply_dist (DDT := StandinDense.dist) MC StandinDense.rft2
    (mk_DistMatrix 2 StandinDense.A21) columnwise_tag 0 (mk_DistMatrix 2 (Zeros 2 1))
  = (Throw unsupported_matrix_distribution, mk_DistMatrix 2 (Zeros 2 1))
  /\ dense_apply_to_local (DD := StandinDense.data) (DDT := StandinDense.dist)
       MC StandinDense.identity2 (mk_DistMatrix 2 StandinDense.A21)
       columnwise_tag (mk_process 0 0) (Zeros 2 1)
     = (Throw unsupported_matrix_distribution, Zeros 2 1).
Proof.
  apply unsupported_distribution_rejected; discriminate.
Defined.


(** X11 for the local transform on the same table and input. *)
Lemma apply_lets_no_library_exception_out_witness :
  (forall what, elemental_exception "Nonconformal Gemm" <> std_logic_error what)
  /\ (forall what, elemental_exception "Nonconformal Gemm" <> boost_mpi_exception what).
Proof.
  apply (apply_lets_no_library_exception_out (DT := StandinGemm.local)
           (DD := StandinGemm.data) (DDT := StandinGemm.dist)
           VC StandinDense.rft2 StandinDense.identity2 StandinDense.A32
           (mk_DistMatrix 2 StandinDense.A32) columnwise_tag 0 (mk_process 0 0)
           (Zeros 2 2) (mk_DistMatrix 2 (Zeros 2 2))).
  left. exists (Zeros 2 2). reflexivity.
Defined.

(** X13 on the 2 x 1 input over two processes, on the process of rank 1. *)
Lemma RFT_columnwise_dist_out_of_bounds_witness :
  fst (RFT_apply_dist (DDT := StandinDense.dist) VC StandinDense.rft2
         (mk_DistMatrix 2 StandinDense.A21) columnwise_tag 1
         (mk_DistMatrix 2 (Zeros 2 1)))
  = Throw (elemental_exception "Entry out of bounds").
Proof.
  apply (RFT_columnwise_dist_out_of_bounds (DDT := StandinDense.dist) VC
           StandinDense.rft2 (mk_DistMatrix 2 StandinDense.A21)
           (mk_DistMatrix 2 (Zeros 2 1))
           (StandinDense.project StandinDense.identity2 StandinDense.A21
              columnwise_tag) 1).
  - now left.
  - reflexivity.
  - reflexivity.
  - reflexivity.
  - reflexivity.
  - cbn. lia.
  - cbn. lia.
Defined.

(** X14 on the 2 x 1 input over one process. *)
Lemma RFT_columnwise_one_process_agrees_witness :
  exists R D,
    RFT_apply (DT := StandinDense.local) StandinDense.rft2 StandinDense.A21
      columnwise_tag (Zeros 2 1) = (Return tt, R)
    /\ RFT_apply_dist (DDT := StandinDense.dist) VC StandinDense.rft2
         (mk_DistMatrix 1 StandinDense.A21) columnwise_tag 0
         (mk_DistMatrix 1 (Zeros 2 1)) = (Return tt, D)
    /\ Height (global D) = Height R /\ Width (global D) = Width R
    /\ forall i j, buffer (global D) i j = buffer R i j.
Proof.
  apply (RFT_columnwise_one_process_agrees (DT := StandinDense.local)
           (DDT := StandinDense.dist) VC StandinDense.rft2
           (mk_DistMatrix 1 StandinDense.A21) (Zeros 2 1)
           (mk_DistMatrix 1 (Zeros 2 1))
           (StandinDense.project StandinDense.identity2 StandinDense.A21
              columnwise_tag)).
  - now left.
  - reflexivity.
  - reflexivity.
  - reflexivity.
  - cbn. lia.
  - reflexivity.
Defined.

End Apply_extra_examples.
